(** * wc-context: the pairing and propagation protocol of [src/context.ts]

    A shallow embedding of [createContext] and [derivedContext].  The
    program is a set of closures installed on DOM elements, so the embedding
    is a state monad over an explicit store:

    - the DOM tree ([parentNode]) and the listener lists of every element;
    - one [WeakMap] per context ([contextMap], keyed by context and element);
    - the data properties of elements ([props]);
    - the variables captured by the closure of [provideDerivedContext]
      ([cells]) and by the objects [fireEventAndRetry] returns ([retries]);
    - a log of observable effects (events dispatched, user callbacks run).

    Closures are defunctionalised: a listener is a constructor carrying the
    variables the closure captured, and a serial number standing for its
    reference identity, which is all [removeEventListener] compares.

    JavaScript values are kept abstract ([value]); the inequality test
    [notEqual] of [utils.js] is a parameter of the development. *)

From Stdlib Require Import ZArith.
From stdpp Require Import gmap strings list fin_maps pretty.

(** ** Identifiers *)

Abbreviation node := nat (only parsing).
Abbreviation ctxId := nat (only parsing).

(** Property keys: a string name, or a [Symbol()] (line 28). *)
Inductive prop :=
| PName (name : string)
| PSymbol (k : nat).

#[global] Instance prop_eq_dec : EqDecision prop.
Proof. solve_decision. Defined.

Definition prop_to_sum (p : prop) : string + nat :=
  match p with PName s => inl s | PSymbol k => inr k end.

Definition prop_of_sum (x : string + nat) : prop :=
  match x with inl s => PName s | inr k => PSymbol k end.

Lemma prop_of_to_sum p : prop_of_sum (prop_to_sum p) = p.
Proof. by destruct p. Qed.

#[global] Instance prop_countable : Countable prop :=
  inj_countable' prop_to_sum prop_of_sum prop_of_to_sum.

(** The three event types: the static [TYPE] strings of [events.js]. *)
Inductive evType :=
| ConsumerConnectTYPE
| ConsumerDisconnectTYPE
| ProviderUpdateTYPE.

#[global] Instance evType_eq_dec : EqDecision evType.
Proof. solve_decision. Defined.

(** Reference identity of the function objects the program passes to
    [addEventListener] and [removeEventListener]: the allocation site and a
    serial number.  [FOnDisconnectFromProvider] is the arrow function of
    lines 128-135, which is only ever passed to [removeEventListener]
    (line 216-219). *)
Inductive fnRef :=
| FOnConsumerConnect (deco : nat)
| FOnProviderUpdate (k : nat)
| FOnDisconnectFromProvider (k : nat)
| FDisconnectListener (k : nat)
| FHandleUpdate (k : nat).

#[global] Instance fnRef_eq_dec : EqDecision fnRef.
Proof. solve_decision. Defined.

(** ** A concrete universe of values

    Used for the concrete runs at the end; the development itself is
    parametric in the values. *)
Inductive jsval :=
| JUndefined
| JNaN
| JNum (z : Z)
| JStr (s : string).

#[global] Instance jsval_eq_dec : EqDecision jsval.
Proof. solve_decision. Defined.

(** Modelled from the spec: [notEqual] of [utils.js] is not part of
    [context.ts]; section 4.3 describes it as structural inequality. *)
Definition js_notEqual (a b : jsval) : bool := negb (bool_decide (a = b)).

Definition js_toString (a : jsval) : string :=
  match a with
  | JUndefined => "undefined"
  | JNaN => "NaN"
  | JNum z => pretty z
  | JStr s => s
  end.

(** JavaScript's [a + b] on these values. *)
Definition js_add (a b : jsval) : jsval :=
  match a, b with
  | JStr _, _ | _, JStr _ => JStr (js_toString a ++ js_toString b)
  | JNum x, JNum y => JNum (x + y)
  | _, _ => JNaN
  end.

(** The derivation [(a, b) => a + b] applied to a spread argument list. *)
Definition js_sum (args : list jsval) : jsval :=
  js_add (nth 0 args JUndefined) (nth 1 args JUndefined).

Section Protocol.

(** JavaScript values, the value of an array hole, and [notEqual] of
    [utils.js] (imported at line 1). *)
Context {value : Type}.
Variable undefined : value.
Variable notEqual : value → value → bool.

(** Modelled from the spec: the threshold of [fireEventAndRetry] of
    [utils.js]; section 4.2 reports failed attempts beyond it. *)
Variable retryThreshold : nat.

(** ** Data model *)

(** The object [createContext] returns, reduced to what its closures
    capture: the identity of the three private event classes (lines 93-103)
    and of [contextMap] (line 90), and [defaultValue]. *)
Record context := MkContext {
  ctx_id : ctxId;
  defaultValue : value;
}.

(** [options] of [consume] (line 188). *)
Record consumeOptions := ConsumeOptions {
  transform : option (value → value);
  onCouldNotFindProvider : option nat;
}.

(** The arrow function [onProviderUpdate] of lines 223-229 with the
    variables it captures. *)
Record updateClosure := UpdateClosure {
  upd_k : nat;
  upd_ctx : context;
  upd_consumer : node;
  upd_prop : prop;
  upd_opts : consumeOptions;
}.

(** [ConsumerConnectEventDetail] (lines 202-230): [det_retry] names the
    dispatcher whose [stop] the variable [stopLookingForProvider] holds. *)
Record detail := Detail {
  det_consumer : node;
  det_retry : nat;
  det_update : updateClosure;
}.

(** Instances of the event classes private to a context. *)
Inductive event :=
| ContextConsumerConnectEvent (c : ctxId) (d : detail)
| ContextConsumerDisconnectEvent (c : ctxId)
| ContextProviderUpdateEvent (c : ctxId) (v : value).

Definition type_of (e : event) : evType :=
  match e with
  | ContextConsumerConnectEvent _ _ => ConsumerConnectTYPE
  | ContextConsumerDisconnectEvent _ => ConsumerDisconnectTYPE
  | ContextProviderUpdateEvent _ _ => ProviderUpdateTYPE
  end.

Definition event_ctx (e : event) : ctxId :=
  match e with
  | ContextConsumerConnectEvent c _ => c
  | ContextConsumerDisconnectEvent c => c
  | ContextProviderUpdateEvent c _ => c
  end.

(** The object [derivedContext] returns (lines 28-36). *)
Record derived := Derived {
  der_key : prop;
  der_ctx : context;
  der_contexts : list context;
  derivation : list value → value;
}.

(** The [handle] argument of [watch]: a subscriber outside the library,
    observed through the log, or the arrow function of lines 52-55. *)
Inductive handler :=
| HUser (h : nat)
| HDerivedSlot (cell : nat) (d : derived) (i : nat) (this : node).

(** Listeners registered on elements. *)
Inductive listener :=
| OnConsumerConnect (deco : nat) (c : context) (p : prop)
| OnProviderUpdate (u : updateClosure)
| DisconnectListener (k : nat) (c : context) (provider : node)
    (upd : fnRef) (consumer : node) (odp : nat)
| HandleUpdate (k : nat) (c : context) (handle : handler).

Definition ref_of (l : listener) : fnRef :=
  match l with
  | OnConsumerConnect deco _ _ => FOnConsumerConnect deco
  | OnProviderUpdate u => FOnProviderUpdate (upd_k u)
  | DisconnectListener k _ _ _ _ _ => FDisconnectListener k
  | HandleUpdate k _ _ => FHandleUpdate k
  end.

(** The context whose closure a listener is. *)
Definition listener_ctx (l : listener) : ctxId :=
  match l with
  | OnConsumerConnect _ c _ => ctx_id c
  | OnProviderUpdate u => ctx_id (upd_ctx u)
  | DisconnectListener _ c _ _ _ _ => ctx_id c
  | HandleUpdate _ c _ => ctx_id c
  end.

(** The function [watch] returns (lines 277-279). *)
Record stopFn := StopFn {
  stop_el : node;
  stop_ref : fnRef;
}.

(** The variables of lines 42-44, one set per call of
    [provideDerivedContext]. *)
Record cell := Cell {
  ready : bool;
  values : list value;
  dispose : list stopFn;
}.

Definition emptyCell : cell := Cell false [] [].

(** The state of one object returned by [fireEventAndRetry]. *)
Record dispatcher := Dispatcher {
  dis_el : node;
  dis_event : event;
  dis_onFail : option nat;
  dis_attempt : nat;
  dis_stopped : bool;
  dis_scheduled : bool;
}.

(** Observable effects. *)
Inductive effect :=
| Dispatched (el : node) (e : event)
| Handled (h : nat) (v : value)
| CouldNotFind (cb : nat) (consumer : node).

Record state := State {
  parentNode : gmap nat nat;
  listeners : gmap nat (list (evType * listener));
  contextMap : gmap (nat * nat) value;
  props : gmap (nat * prop) value;
  cells : gmap nat cell;
  retries : gmap nat dispatcher;
  log : list effect;
  fresh : nat;
}.

Definition initial : state := State ∅ ∅ ∅ ∅ ∅ ∅ [] 0.

Definition with_parentNode (f : gmap nat nat → gmap nat nat) (s : state) : state :=
  State (f (parentNode s)) (listeners s) (contextMap s) (props s) (cells s)
    (retries s) (log s) (fresh s).

Definition with_listeners
  (f : gmap nat (list (evType * listener)) → gmap nat (list (evType * listener)))
  (s : state) : state :=
  State (parentNode s) (f (listeners s)) (contextMap s) (props s) (cells s)
    (retries s) (log s) (fresh s).

Definition with_contextMap
  (f : gmap (nat * nat) value → gmap (nat * nat) value) (s : state) : state :=
  State (parentNode s) (listeners s) (f (contextMap s)) (props s) (cells s)
    (retries s) (log s) (fresh s).

Definition with_props
  (f : gmap (nat * prop) value → gmap (nat * prop) value) (s : state) : state :=
  State (parentNode s) (listeners s) (contextMap s) (f (props s)) (cells s)
    (retries s) (log s) (fresh s).

Definition with_cells (f : gmap nat cell → gmap nat cell) (s : state) : state :=
  State (parentNode s) (listeners s) (contextMap s) (props s) (f (cells s))
    (retries s) (log s) (fresh s).

Definition with_retries
  (f : gmap nat dispatcher → gmap nat dispatcher) (s : state) : state :=
  State (parentNode s) (listeners s) (contextMap s) (props s) (cells s)
    (f (retries s)) (log s) (fresh s).

Definition with_log (f : list effect → list effect) (s : state) : state :=
  State (parentNode s) (listeners s) (contextMap s) (props s) (cells s)
    (retries s) (f (log s)) (fresh s).

Definition with_fresh (f : nat → nat) (s : state) : state :=
  State (parentNode s) (listeners s) (contextMap s) (props s) (cells s)
    (retries s) (log s) (f (fresh s)).

(** ** The monad: state passing; [None] only when the nesting bound of
    [dispatchEvent] below is exhausted. *)

Definition M (A : Type) : Type := state → option (A * state).

Definition ret {A} (a : A) : M A := λ s, Some (a, s).

Definition bind {A B} (m : M A) (k : A → M B) : M B :=
  λ s, match m s with
       | Some (a, s') => k a s'
       | None => None
       end.

Definition gets {A} (f : state → A) : M A := λ s, Some (f s, s).

Definition modify (f : state → state) : M unit := λ s, Some (tt, f s).

Notation "'let*' x ':=' m 'in' k" := (bind m (λ x, k))
  (at level 10, x pattern, m at level 100, k at level 200).
Notation "m ;; k" := (bind m (λ _, k))
  (at level 100, k at level 200, right associativity).

(** ** The host: element tree and event dispatch

    The DOM operations the program calls: [addEventListener],
    [removeEventListener] and [dispatchEvent] with listeners scoped to one
    element, run in registration order. *)

Definition listeners_of (s : state) (el : node) : list (evType * listener) :=
  default [] (listeners s !! el).

Definition same_listener (ty : evType) (r : fnRef) (x : evType * listener) : bool :=
  bool_decide (x.1 = ty) && bool_decide (ref_of x.2 = r).

Definition registered (el : node) (ty : evType) (r : fnRef) (s : state) : bool :=
  existsb (same_listener ty r) (listeners_of s el).

(** Adding a function that is already registered for the type does nothing. *)
Definition addListener (el : node) (ty : evType) (l : listener) (s : state) : state :=
  if registered el ty (ref_of l) s then s
  else with_listeners <[el := listeners_of s el ++ [(ty, l)]]> s.

Definition addEventListener (el : node) (ty : evType) (l : listener) : M unit :=
  modify (addListener el ty l).

Definition removeListener (el : node) (ty : evType) (r : fnRef) (s : state) : state :=
  with_listeners (alter (List.filter (λ x, negb (same_listener ty r x))) el) s.

Definition removeEventListener (el : node) (ty : evType) (r : fnRef) : M unit :=
  modify (removeListener el ty r).

(** The ancestors of an element, innermost first.  A chain of parents
    without repetition is no longer than the number of parent links. *)
Fixpoint ancestors (n : nat) (parents : gmap nat nat) (el : node) : list node :=
  match n with
  | 0 => []
  | S n' =>
      match parents !! el with
      | Some p => p :: ancestors n' parents p
      | None => []
      end
  end.

(** Modelled from the spec: the [bubbles] flag the base event classes of
    [events.js] pass to the [Event] constructor.  Section 4.1 has the
    connect event bubble up the component tree, the update event dispatched
    from and listened for on the provider's own element, and the disconnect
    event on the consumer's. *)
Definition bubbles (e : event) : bool :=
  match e with
  | ContextConsumerConnectEvent _ _ => true
  | _ => false
  end.

(** The elements an event dispatched on [el] visits. *)
Definition eventPath (el : node) (e : event) (s : state) : list node :=
  if bubbles e then el :: ancestors (size (parentNode s)) (parentNode s) el
  else [el].

(** The listeners of [el] for events of type [ty]. *)
Definition snapshot (el : node) (ty : evType) (s : state) : list listener :=
  List.map snd (List.filter (λ x, bool_decide (x.1 = ty)) (listeners_of s el)).

(** Modelled from the spec: the static [validate] of [events.js] that the
    private classes of lines 93-103 inherit, here for
    [ContextConsumerConnectEvent].  Sections 4.1 and 9: a predicate unique
    to the context, deciding by the discriminator created per
    [createContext] call, not by shape.  On success the result is the
    event's [detail]. *)
Definition validate_connect (c : context) (e : event) : option detail :=
  match e with
  | ContextConsumerConnectEvent c' d => if bool_decide (c' = ctx_id c) then Some d else None
  | _ => None
  end.

(** Modelled from the spec: [validate] of [events.js] for
    [ContextConsumerDisconnectEvent], as above. *)
Definition validate_disconnect (c : context) (e : event) : bool :=
  match e with
  | ContextConsumerDisconnectEvent c' => bool_decide (c' = ctx_id c)
  | _ => false
  end.

(** Modelled from the spec: [validate] of [events.js] for
    [ContextProviderUpdateEvent], as above. *)
Definition validate_update (c : context) (e : event) : option value :=
  match e with
  | ContextProviderUpdateEvent c' v => if bool_decide (c' = ctx_id c) then Some v else None
  | _ => None
  end.

Definition logEffect (x : effect) : M unit := modify (with_log (λ l, l ++ [x])).

Definition freshId : M nat :=
  let* k := gets fresh in
  modify (with_fresh S) ;;
  ret k.

(** ** The program *)

Section Bindings.

(** [el.dispatchEvent(e)], as seen from inside the closures. *)
Variable dispatchEvent : node → event → M unit.

(** *** Context store and provider property (lines 164-178)

    Each property name of a component type is bound by one decorator only,
    so [this[contextPropertyName]] inside the provider binding is the
    accessor that binding installs, and the property a consumer binding
    assigns is a data property. *)

Definition stored (c : context) (el : node) (s : state) : option value :=
  contextMap s !! (ctx_id c, el).

(** [get] (lines 166-168). *)
Definition provider_get (c : context) (this : node) : M value :=
  gets (λ s, match stored c this s with
             | Some v => v
             | None => defaultValue c
             end).

(** [set] (lines 170-175). *)
Definition provider_set (c : context) (this : node) (newValue : value) : M unit :=
  let* previous := provider_get c this in
  if notEqual newValue previous then
    modify (with_contextMap <[(ctx_id c, this) := newValue]>) ;;
    dispatchEvent this (ContextProviderUpdateEvent (ctx_id c) newValue)
  else ret tt.

(** *** Derived context: the closure of [provideDerivedContext] *)

Definition cell_of (s : state) (k : nat) : cell :=
  default emptyCell (cells s !! k).

(** [values[i] = v] on a JavaScript array: writing past the end leaves
    holes, which read as [undefined] when the array is spread. *)
Definition array_set (i : nat) (v : value) (l : list value) : list value :=
  if bool_decide (i < length l) then <[i := v]> l
  else l ++ replicate (i - length l) undefined ++ [v].

Definition set_slot (k i : nat) (v : value) (s : state) : state :=
  let c := cell_of s k in
  with_cells <[k := Cell (ready c) (array_set i v (values c)) (dispose c)]> s.

Definition set_ready (k : nat) (b : bool) (s : state) : state :=
  let c := cell_of s k in
  with_cells <[k := Cell b (values c) (dispose c)]> s.

Definition push_dispose (k : nat) (f : stopFn) (s : state) : state :=
  let c := cell_of s k in
  with_cells <[k := Cell (ready c) (values c) (dispose c ++ [f])]> s.

(** [sync] (lines 46-48); [this[key]] is the accessor installed at line 72. *)
Definition sync (k : nat) (d : derived) (this : node) : M unit :=
  let* vs := gets (λ s, values (cell_of s k)) in
  provider_set (der_ctx d) this (derivation d vs).

(** A call of the [handle] argument of [watch]. *)
Definition callHandle (h : handler) (v : value) : M unit :=
  match h with
  | HUser id => logEffect (Handled id v)
  | HDerivedSlot k d i this =>
      modify (set_slot k i v) ;;
      let* r := gets (λ s, ready (cell_of s k)) in
      if r then sync k d this else ret tt
  end.

(** [watch] (lines 264-280). *)
Definition watch (c : context) (el : node) (handle : handler) : M stopFn :=
  let* v := provider_get c el in
  callHandle handle v ;;
  let* k := freshId in
  addEventListener el ProviderUpdateTYPE (HandleUpdate k c handle) ;;
  ret (StopFn el (FHandleUpdate k)).

Definition callStop (f : stopFn) : M unit :=
  removeEventListener (stop_el f) ProviderUpdateTYPE (stop_ref f).

(** [handleUpdate] (lines 271-274). *)
Definition handleUpdate (c : context) (handle : handler) (e : event) : M unit :=
  match validate_update c e with
  | None => ret tt
  | Some v => callHandle handle v
  end.

(** *** Retry dispatcher *)

(** Modelled from the spec: [fireEventAndRetry] of [utils.js], which is not
    part of [context.ts].  Section 4.2: the call returns an object with
    [start] and [stop]; [rid] names that object. *)
Definition fireEventAndRetry (rid : nat) (el : node) (e : event)
    (onFail : option nat) : M unit :=
  modify (with_retries <[rid := Dispatcher el e onFail 0 false false]>).

(** Modelled from the spec: [stop] of the object [fireEventAndRetry]
    returns.  Section 4.2: it halts all pending retries. *)
Definition retry_stop (rid : nat) : M unit :=
  modify (with_retries
    (alter (λ d, Dispatcher (dis_el d) (dis_event d) (dis_onFail d)
                   (dis_attempt d) true false) rid)).

(** Modelled from the spec: the end of an attempt of the dispatcher of
    [utils.js].  Section 4.2: an attempt nobody claimed schedules the next
    one. *)
Definition retry_schedule (rid : nat) : M unit :=
  modify (with_retries
    (alter (λ d, Dispatcher (dis_el d) (dis_event d) (dis_onFail d)
                   (S (dis_attempt d)) (dis_stopped d)
                   (negb (dis_stopped d))) rid)).

(** Modelled from the spec: [start] of the object [fireEventAndRetry]
    returns.  Section 4.2: dispatch the event immediately. *)
Definition retry_start (rid : nat) : M unit :=
  let* d := gets (λ s, retries s !! rid) in
  match d with
  | None => ret tt
  | Some d =>
      dispatchEvent (dis_el d) (dis_event d) ;;
      retry_schedule rid
  end.

(** Modelled from the spec: the retry timer of the dispatcher of
    [utils.js] firing.  Section 4.2: re-dispatch unless stopped, and on a
    failed attempt beyond the threshold call the failure callback. *)
Definition retry_tick (rid : nat) : M unit :=
  let* d := gets (λ s, retries s !! rid) in
  match d with
  | None => ret tt
  | Some d =>
      if dis_stopped d || negb (dis_scheduled d) then ret tt
      else
        (if bool_decide (retryThreshold < dis_attempt d) then
           match dis_onFail d with
           | Some cb => logEffect (CouldNotFind cb (dis_el d))
           | None => ret tt
           end
         else ret tt) ;;
        dispatchEvent (dis_el d) (dis_event d) ;;
        retry_schedule rid
  end.

(** *** Consumer binding (lines 188-262) *)

Definition apply_transform (o : consumeOptions) (v : value) : value :=
  match transform o with
  | Some f => f v
  | None => v
  end.

(** [onProviderUpdate] (lines 223-229). *)
Definition onProviderUpdate (u : updateClosure) (e : event) : M unit :=
  match validate_update (upd_ctx u) e with
  | None => ret tt
  | Some v =>
      modify (with_props
        <[(upd_consumer u, upd_prop u) := apply_transform (upd_opts u) v]>)
  end.

(** [detail.onConnectToProvider] (lines 203-220). *)
Definition detail_onConnectToProvider (d : detail) (c : context)
    (provider : node) (odp : nat) : M unit :=
  retry_stop (det_retry d) ;;
  let* k := freshId in
  addEventListener (det_consumer d) ConsumerDisconnectTYPE
    (DisconnectListener k c provider
       (FOnProviderUpdate (upd_k (det_update d))) (det_consumer d) odp).

(** [onConnectToProvider] (lines 197-250). *)
Definition consumer_onConnectToProvider (c : context) (p : prop)
    (o : consumeOptions) (this : node) : M unit :=
  let* rid := freshId in
  let* k := freshId in
  let d := Detail this rid (UpdateClosure k c this p o) in
  fireEventAndRetry rid this (ContextConsumerConnectEvent (ctx_id c) d)
    (onCouldNotFindProvider o) ;;
  retry_start rid.

(** *** Provider binding (lines 107-186) *)

(** [onDisconnectFromProvider] (lines 128-135). *)
Definition onDisconnectFromProvider (c : context) (provider : node)
    (upd : fnRef) (e : event) : M unit :=
  if validate_disconnect c e then
    removeEventListener provider ProviderUpdateTYPE upd
  else ret tt.

(** [onConsumerConnect] (lines 114-145); the result tells whether
    [stopImmediatePropagation] was called on the event. *)
Definition onConsumerConnect (c : context) (this : node) (e : event) : M bool :=
  match validate_connect c e with
  | None => ret false
  | Some d =>
      addEventListener this ProviderUpdateTYPE (OnProviderUpdate (det_update d)) ;;
      let* odp := freshId in
      detail_onConnectToProvider d c this odp ;;
      let* v := provider_get c this in
      onProviderUpdate (det_update d) (ContextProviderUpdateEvent (ctx_id c) v) ;;
      ret true
  end.

(** *** Running listeners *)

Definition invoke (l : listener) (this : node) (e : event) : M bool :=
  match l with
  | OnConsumerConnect _ c _ => onConsumerConnect c this e
  | OnProviderUpdate u => onProviderUpdate u e ;; ret false
  | DisconnectListener _ c provider upd consumer odp =>
      (* lines 210-213: [onDisconnectFromProvider(e); off()] *)
      onDisconnectFromProvider c provider upd e ;;
      removeEventListener consumer ConsumerDisconnectTYPE
        (FOnDisconnectFromProvider odp) ;;
      ret false
  | HandleUpdate _ c h => handleUpdate c h e ;; ret false
  end.

(** The listeners of one element, from a copy of its list taken when the
    event arrives; a listener removed meanwhile is skipped.  The result
    tells whether propagation was stopped. *)
Fixpoint invokeAll (this : node) (e : event) (ls : list listener) : M bool :=
  match ls with
  | [] => ret false
  | l :: rest =>
      let* present := gets (registered this (type_of e) (ref_of l)) in
      if present then
        let* stop := invoke l this e in
        if stop then ret true else invokeAll this e rest
      else invokeAll this e rest
  end.

Fixpoint propagate (path : list node) (e : event) : M unit :=
  match path with
  | [] => ret tt
  | el :: up =>
      let* ls := gets (snapshot el (type_of e)) in
      let* stop := invokeAll el e ls in
      if stop then ret tt else propagate up e
  end.

Definition dispatchBody (el : node) (e : event) : M unit :=
  logEffect (Dispatched el e) ;;
  let* path := gets (eventPath el e) in
  propagate path e.

(** *** Lifecycle hooks

    A component type is the list of the bindings applied to its prototype,
    the last one applied first: each binding captures the hooks it finds
    (lines 40, 112, 195) and calls them after its own work.  The empty list
    is a type without hooks of its own. *)
Inductive binding :=
| Provide (deco : nat) (c : context) (p : prop)
| Consume (c : context) (p : prop) (o : consumeOptions)
| DerivedHooks (cell : nat) (d : derived).

(** The [forEach] of lines 51-58, from index [i] on. *)
Fixpoint watchAll (k : nat) (d : derived) (this : node) (i : nat)
    (cs : list context) : M unit :=
  match cs with
  | [] => ret tt
  | c :: rest =>
      let* stop := watch c this (HDerivedSlot k d i this) in
      modify (push_dispose k stop) ;;
      watchAll k d this (S i) rest
  end.

Fixpoint callStops (fs : list stopFn) : M unit :=
  match fs with
  | [] => ret tt
  | f :: rest => callStop f ;; callStops rest
  end.

(** The work a binding does in its [connectedCallback] before it calls
    the hook it captured: lines 147-150, 252-255 and 50-64. *)
Definition connectedHook (b : binding) (this : node) : M unit :=
  match b with
  | Provide deco c p =>
      addEventListener this ConsumerConnectTYPE (OnConsumerConnect deco c p)
  | Consume c p o =>
      consumer_onConnectToProvider c p o this
  | DerivedHooks k d =>
      watchAll k d this 0 (der_contexts d) ;;
      modify (set_ready k true) ;;
      sync k d this
  end.

(** Likewise for [disconnectedCallback]: lines 152-162, 257-260, 66-70. *)
Definition disconnectedHook (b : binding) (this : node) : M unit :=
  match b with
  | Provide deco c p =>
      removeEventListener this ConsumerConnectTYPE (FOnConsumerConnect deco) ;;
      modify (with_contextMap (delete (ctx_id c, this)))
  | Consume c p o =>
      dispatchEvent this (ContextConsumerDisconnectEvent (ctx_id c))
  | DerivedHooks k d =>
      modify (set_ready k false) ;;
      let* fs := gets (λ s, dispose (cell_of s k)) in
      callStops fs
  end.

Fixpoint connectedCallback (proto : list binding) (this : node) : M unit :=
  match proto with
  | [] => ret tt
  | b :: orig => connectedHook b this ;; connectedCallback orig this
  end.

Fixpoint disconnectedCallback (proto : list binding) (this : node) : M unit :=
  match proto with
  | [] => ret tt
  | b :: orig => disconnectedHook b this ;; disconnectedCallback orig this
  end.

(** The host attaches and detaches elements and runs the hooks. *)
Definition attach (proto : list binding) (this : node) (parent : option node) : M unit :=
  modify (with_parentNode (λ m, match parent with
                                | Some p => <[this := p]> m
                                | None => delete this m
                                end)) ;;
  connectedCallback proto this.

Definition detach (proto : list binding) (this : node) : M unit :=
  modify (with_parentNode (delete this)) ;;
  disconnectedCallback proto this.

End Bindings.

(** *** Tying the knot

    A listener runs [dispatchEvent] again only through [sync], one level of
    derivation deeper; the first argument bounds that depth. *)
Fixpoint dispatchEvent (depth : nat) (el : node) (e : event) : M unit :=
  match depth with
  | 0 => λ _, None
  | S depth' => dispatchBody (dispatchEvent depth') el e
  end.

(** *** Creating contexts and decorating component types *)

(** [createContext] (lines 88-105): a new store and new event classes. *)
Definition createContext (dv : value) : M context :=
  let* k := freshId in
  ret (MkContext k dv).

(** [derivedContext] (lines 24-36). *)
Definition derivedContext (contexts : list context)
    (f : list value → value) : M derived :=
  let* key := freshId in
  let dv := f (List.map defaultValue contexts) in
  let* c := createContext dv in
  ret (Derived (PSymbol key) c contexts f).

(** [context.provide()(proto, name)] (lines 107-186). *)
Definition provide (c : context) (p : prop) (proto : list binding) : M (list binding) :=
  let* deco := freshId in
  ret (Provide deco c p :: proto).

(** [context.consume(options)(proto, name)] (lines 188-262). *)
Definition consume (c : context) (o : consumeOptions) (p : prop)
    (proto : list binding) : M (list binding) :=
  ret (Consume c p o :: proto).

(** [derived.provide()(ctor)] (lines 37-74): new closure variables, the two
    hooks, then the provider binding of the underlying context on [key]
    (line 72). *)
Definition provideDerivedContext (d : derived) (proto : list binding) : M (list binding) :=
  let* k := freshId in
  modify (with_cells <[k := emptyCell]>) ;;
  provide (der_ctx d) (der_key d) (DerivedHooks k d :: proto).

(** ** Vocabulary of the specification *)

(** A listener that claims connect events of context [c]. *)
Definition claims (c : ctxId) (l : listener) : bool :=
  match l with
  | OnConsumerConnect _ c' _ => bool_decide (ctx_id c' = c)
  | _ => false
  end.

(** An element that currently answers connect events of context [c]: an
    attached provider of [c]. *)
Definition provides (c : ctxId) (s : state) (el : node) : bool :=
  existsb (claims c) (snapshot el ConsumerConnectTYPE s).

(** The nearest provider of [c] on a path that starts at the consumer and
    goes up. *)
Definition nearestProvider (c : ctxId) (path : list node) (s : state) : option node :=
  List.find (provides c s) path.

(** The values carried by the update events of context [c] that element
    [el] dispatched, read off a piece of the log. *)
Fixpoint updates_from (c : ctxId) (el : node) (l : list effect) : list value :=
  match l with
  | [] => []
  | Dispatched el' (ContextProviderUpdateEvent c' v) :: rest =>
      if bool_decide (el' = el ∧ c' = c) then v :: updates_from c el rest
      else updates_from c el rest
  | _ :: rest => updates_from c el rest
  end.

(** Derivations go from older contexts to newer ones: a slot listener
    watches a context created before the derived context it feeds
    ([derivedContext] creates its context after its arguments exist), and
    [bound] is above every derived context.  This bounds the nesting of
    [dispatchEvent]. *)
Definition acyclic_listener (bound : nat) (x : evType * listener) : bool :=
  match x.2 with
  | HandleUpdate _ u (HDerivedSlot _ d _ _) =>
      bool_decide (ctx_id u < ctx_id (der_ctx d) ≤ bound)
  | _ => true
  end.

Definition acyclic (bound : nat) (s : state) : bool :=
  forallb (λ kv, forallb (acyclic_listener bound) kv.2)
    (map_to_list (listeners s)).

Definition derived_ok (bound : nat) (d : derived) : bool :=
  forallb (λ u, bool_decide (ctx_id u < ctx_id (der_ctx d))) (der_contexts d)
  && bool_decide (ctx_id (der_ctx d) ≤ bound).

(** [s'] has no listener that [s] had not. *)
Definition listeners_shrink (s s' : state) : Prop :=
  ∀ el ty r, registered el ty r s' = true → registered el ty r s = true.

(** What detaching [this] can change, whatever the bindings of its type:
    no dispatcher, no store entry of another element, no [dispose] or
    [values] variable; listeners are only removed, store entries of [this]
    only deleted. *)
Definition detached (this : node) (s s' : state) : Prop :=
  retries s' = retries s ∧
  listeners_shrink s s' ∧
  (∀ c n, n ≠ this → contextMap s' !! (c, n) = contextMap s !! (c, n)) ∧
  (∀ c, contextMap s' !! (c, this) = None ∨
        contextMap s' !! (c, this) = contextMap s !! (c, this)) ∧
  (∀ k, dispose (cell_of s' k) = dispose (cell_of s k) ∧
        values (cell_of s' k) = values (cell_of s k)).

(** An effect that does not concern context [c] or an older one. *)
Definition later (c : ctxId) (x : effect) : Prop :=
  match x with
  | Dispatched _ e => c < event_ctx e
  | _ => True
  end.

(** What the listeners of an update event of context [c] can change: the
    stores of newer contexts, consumer properties, the [values] slots, the
    log; no listener list, no dispatcher, no [ready] or [dispose]
    variable, and no store of [c] or of an older context. *)
Definition settled (c : ctxId) (s s' : state) : Prop :=
  listeners s' = listeners s ∧
  retries s' = retries s ∧
  parentNode s' = parentNode s ∧
  fresh s' = fresh s ∧
  (∀ c' n, c' ≤ c → contextMap s' !! (c', n) = contextMap s !! (c', n)) ∧
  (∀ k, ready (cell_of s' k) = ready (cell_of s k) ∧
        dispose (cell_of s' k) = dispose (cell_of s k)) ∧
  ∃ tl, log s' = log s ++ tl ∧ Forall (later c) tl.

(** The closure variables [ready] and [dispose] of every decorated type
    are as before. *)
Definition cells_kept (s s' : state) : Prop :=
  ∀ k, ready (cell_of s' k) = ready (cell_of s k) ∧
       dispose (cell_of s' k) = dispose (cell_of s k).

(** The unsubscribe functions of [n] consecutive subscriptions on [this],
    the first one with serial [k0]. *)
Definition stops (this : node) (k0 n : nat) : list stopFn :=
  List.map (λ j, StopFn this (FHandleUpdate (k0 + j))) (seq 0 n).

(** ** Scenarios

    Small programs over the interface, used as concrete inputs below. *)

(** A consumer of a fresh context attached where no provider is: element
    1, with a failure callback, at the root. *)
Definition lone_consumer (dv : value) : M (context * list binding) :=
  let* c := createContext dv in
  let* proto := consume c (ConsumeOptions None (Some 0)) (PName "value") [] in
  attach (dispatchEvent 1) proto 1 None ;;
  ret (c, proto).

(** A provider of a fresh context attached as element 1. *)
Definition lone_provider (dv : value) : M (context * list binding) :=
  let* c := createContext dv in
  let* proto := provide c (PName "value") [] in
  attach (dispatchEvent 1) proto 1 None ;;
  ret (c, proto).

(** Two provider elements of one type, 1 and 2, each with a stored value. *)
Definition two_providers (dv v1 v2 : value) : M (context * list binding) :=
  let* c := createContext dv in
  let* proto := provide c (PName "value") [] in
  attach (dispatchEvent 1) proto 1 None ;;
  attach (dispatchEvent 1) proto 2 None ;;
  provider_set (dispatchEvent 1) c 1 v1 ;;
  provider_set (dispatchEvent 1) c 2 v2 ;;
  ret (c, proto).

(** A type that provides two contexts and the context derived from them,
    not attached yet. *)
Definition derived_type (a b : value) (f : list value → value)
    : M (context * context * derived * list binding) :=
  let* ca := createContext a in
  let* cb := createContext b in
  let* d := derivedContext [ca; cb] f in
  let* p0 := provide ca (PName "a") [] in
  let* p1 := provide cb (PName "b") p0 in
  let* proto := provideDerivedContext d p1 in
  ret (ca, cb, d, proto).

(** The same, attached as element 1. *)
Definition derived_attached (a b : value) (f : list value → value)
    : M (context * context * derived * list binding) :=
  let* r := derived_type a b f in
  attach (dispatchEvent 2) r.2 1 None ;;
  ret r.

(** A provider, element 1, holding [v], with element 2 inserted below it
    by the host and not yet connected. *)
Definition child_inserted (dv v : value) : M (context * list binding) :=
  let* c := createContext dv in
  let* proto := provide c (PName "value") [] in
  attach (dispatchEvent 1) proto 1 None ;;
  provider_set (dispatchEvent 1) c 1 v ;;
  modify (with_parentNode <[2 := 1]>) ;;
  ret (c, proto).

(** A provider, element 1, holding [v], and a consumer of the same
    context, element 2, attached below it, with transform [f]. *)
Definition paired_consumer (dv v : value) (f : option (value → value))
    : M (context * list binding * list binding) :=
  let* c := createContext dv in
  let* pp := provide c (PName "value") [] in
  let* cp := consume c (ConsumeOptions f None) (PName "seen") [] in
  attach (dispatchEvent 1) pp 1 None ;;
  provider_set (dispatchEvent 1) c 1 v ;;
  attach (dispatchEvent 1) cp 2 (Some 1) ;;
  ret (c, pp, cp).

(** The type of [derived_type], with element 1 holding [va] for the first
    upstream context before it is attached. *)
Definition derived_type_with_value (a b : value) (f : list value → value)
    (va : value) : M (context * context * derived * list binding) :=
  let* r := derived_type a b f in
  provider_set (dispatchEvent 1) r.1.1.1 1 va ;;
  ret r.

(** The state a program ends in. *)
Definition after {A} (m : M A) (s : state) : state :=
  match m s with
  | Some (_, s') => s'
  | None => s
  end.

Definition final {A} (m : M A) : state := after m initial.

(** ** Vocabulary for update delivery *)

(** A listener that does not run [sync]: anything but the slot listener of
    a derived context. *)
Definition passive (l : listener) : bool :=
  match l with
  | HandleUpdate _ _ (HDerivedSlot _ _ _ _) => false
  | _ => true
  end.

(** The watch handlers of context [c] among some listeners, in order. *)
Fixpoint watchers (c : ctxId) (ls : list listener) : list nat :=
  match ls with
  | [] => []
  | HandleUpdate _ c' (HUser h) :: rest =>
      if bool_decide (ctx_id c' = c) then h :: watchers c rest
      else watchers c rest
  | _ :: rest => watchers c rest
  end.

(** An update callback of context [c] that assigns property [key]. *)
Definition targets (c : ctxId) (key : nat * prop) (l : listener) : bool :=
  match l with
  | OnProviderUpdate u =>
      bool_decide (ctx_id (upd_ctx u) = c ∧ (upd_consumer u, upd_prop u) = key)
  | _ => false
  end.

(** What one passive listener does with an update event of context [c]
    carrying [v]. *)
Definition deliver (c : ctxId) (v : value) (s : state) (l : listener) : state :=
  match l with
  | OnProviderUpdate u =>
      if bool_decide (c = ctx_id (upd_ctx u))
      then with_props
             <[(upd_consumer u, upd_prop u) := apply_transform (upd_opts u) v]> s
      else s
  | HandleUpdate _ c' (HUser h) =>
      if bool_decide (c = ctx_id c')
      then with_log (λ l, l ++ [Handled h v]) s
      else s
  | _ => s
  end.

(** The elements a connect event dispatched on [el] visits. *)
Definition pathFrom (s : state) (el : node) : list node :=
  el :: ancestors (size (parentNode s)) (parentNode s) el.

(** The frame of one listener's work on a disconnect event. *)
Definition unpairing (s s' : state) : Prop :=
  contextMap s' = contextMap s ∧ props s' = props s ∧
  retries s' = retries s ∧ cells s' = cells s ∧ log s' = log s ∧
  (∀ n ty, ty ≠ ProviderUpdateTYPE → snapshot n ty s' = snapshot n ty s) ∧
  listeners_shrink s s'.

(** The value element [el] has for context [c]: its store entry, or the
    default (lines 167 and 266-268). *)
Definition valueAt (c : context) (el : node) (s : state) : value :=
  match contextMap s !! (ctx_id c, el) with
  | Some v => v
  | None => defaultValue c
  end.

(** A binding other than the hooks of a derived context. *)
Definition plain (b : binding) : bool :=
  match b with
  | DerivedHooks _ _ => false
  | _ => true
  end.

(** The serial number in a function reference. *)
Definition serial (r : fnRef) : nat :=
  match r with
  | FOnConsumerConnect k => k
  | FOnProviderUpdate k => k
  | FOnDisconnectFromProvider k => k
  | FDisconnectListener k => k
  | FHandleUpdate k => k
  end.

(** Every listener of [el] was created before the next closure will be. *)
Definition older (s : state) (el : node) : bool :=
  forallb (λ x, bool_decide (serial (ref_of x.2) < fresh s)) (listeners_of s el).

(** The slot listeners one attach of a derived type subscribes, the first
    with serial [k0] for slot [i]. *)
Fixpoint slotListeners (k : nat) (d : derived) (this : node) (k0 i : nat)
    (cs : list context) : list (evType * listener) :=
  match cs with
  | [] => []
  | u :: rest =>
      (ProviderUpdateTYPE, HandleUpdate k0 u (HDerivedSlot k d i this))
      :: slotListeners k d this (S k0) (S i) rest
  end.

(** * Properties *)

(** ** Running the monad *)

Lemma bind_Some {A B} (m : M A) (k : A → M B) s a s' :
  m s = Some (a, s') → bind m k s = k a s'.
Proof. unfold bind. by intros ->. Qed.

(** ** Listener lists *)

Lemma filter_keep_all {A} (f : A → bool) (l : list A) :
  (∀ x, In x l → f x = true) → List.filter f l = l.
Proof.
  induction l as [|a l IH]; simpl; [done|]. intros Hall.
  rewrite (Hall a) by auto. f_equal. apply IH. auto.
Qed.

(** No registered listener is the function [onDisconnectFromProvider]. *)
Lemma same_listener_odp ty k x :
  same_listener ty (FOnDisconnectFromProvider k) x = false.
Proof.
  unfold same_listener. destruct x as [ty' l]; simpl.
  destruct l; simpl; by rewrite andb_false_r.
Qed.

(** Hence [off()] (line 212) removes nothing. *)
Lemma removeListener_odp el ty k s :
  removeListener el ty (FOnDisconnectFromProvider k) s = s.
Proof.
  destruct s as [pa ls cm pr ce re lg fr].
  unfold removeListener, with_listeners; simpl. f_equal.
  apply map_eq. intros i. rewrite lookup_alter.
  case_decide; [subst|done].
  destruct (ls !! i) as [l|] eqn:E; simpl; [|done].
  f_equal. apply filter_keep_all. intros x _.
  by rewrite same_listener_odp.
Qed.

(** What [addEventListener] leaves alone. *)
Lemma addListener_parentNode el ty l s :
  parentNode (addListener el ty l s) = parentNode s.
Proof. unfold addListener. by case_match. Qed.
Lemma addListener_contextMap el ty l s :
  contextMap (addListener el ty l s) = contextMap s.
Proof. unfold addListener. by case_match. Qed.
Lemma addListener_props el ty l s :
  props (addListener el ty l s) = props s.
Proof. unfold addListener. by case_match. Qed.
Lemma addListener_cells el ty l s :
  cells (addListener el ty l s) = cells s.
Proof. unfold addListener. by case_match. Qed.
Lemma addListener_retries el ty l s :
  retries (addListener el ty l s) = retries s.
Proof. unfold addListener. by case_match. Qed.
Lemma addListener_log el ty l s :
  log (addListener el ty l s) = log s.
Proof. unfold addListener. by case_match. Qed.
Lemma addListener_fresh el ty l s :
  fresh (addListener el ty l s) = fresh s.
Proof. unfold addListener. by case_match. Qed.

Create Rewrite HintDb frame.
Hint Rewrite addListener_parentNode addListener_contextMap addListener_props
  addListener_cells addListener_retries addListener_log addListener_fresh
  : frame.

Ltac frame_simpl := repeat (progress (simpl; autorewrite with frame)).

Lemma registered_addListener el ty l s :
  registered el ty (ref_of l) (addListener el ty l s) = true.
Proof.
  unfold addListener.
  destruct (registered el ty (ref_of l) s) eqn:E; [done|].
  unfold registered, listeners_of; simpl. rewrite lookup_insert_eq; simpl.
  rewrite existsb_app; simpl. unfold same_listener at 2; simpl.
  rewrite !bool_decide_eq_true_2 by done. by rewrite orb_true_r.
Qed.

(** A registration survives every later [addEventListener]. *)
Lemma registered_addListener_mono el ty r el' ty' l s :
  registered el ty r s = true →
  registered el ty r (addListener el' ty' l s) = true.
Proof.
  intros H. unfold addListener. case_match; [done|].
  unfold registered, listeners_of; simpl.
  destruct (decide (el' = el)) as [->|Hne].
  - rewrite lookup_insert_eq; simpl. rewrite existsb_app.
    unfold registered, listeners_of in H. by rewrite H.
  - by rewrite lookup_insert_ne.
Qed.

(** ** Validation *)

Lemma validate_connect_foreign c e :
  ctx_id c ≠ event_ctx e → validate_connect c e = None.
Proof.
  destruct e; simpl; [|done..]. intros Hne.
  rewrite bool_decide_eq_false_2; [done|congruence].
Qed.

Lemma validate_disconnect_foreign c e :
  ctx_id c ≠ event_ctx e → validate_disconnect c e = false.
Proof.
  destruct e; simpl; [done| |done]. intros Hne.
  rewrite bool_decide_eq_false_2; [done|congruence].
Qed.

Lemma validate_update_foreign c e :
  ctx_id c ≠ event_ctx e → validate_update c e = None.
Proof.
  destruct e; simpl; [done..|]. intros Hne.
  rewrite bool_decide_eq_false_2; [done|congruence].
Qed.

(** ** The context store *)

(** C2: [get] on a provider returns the value stored for it in the
    context's store, or the context's [defaultValue] when the store has no
    entry; it always returns, and leaves the state as it was. *)
Theorem get_returns_stored_or_default (c : context) (this : node) (s : state) :
  ∃ v, provider_get c this s = Some (v, s) ∧
       match contextMap s !! (ctx_id c, this) with
       | Some w => v = w
       | None => v = defaultValue c
       end.
Proof.
  unfold provider_get, gets, stored.
  destruct (contextMap s !! (ctx_id c, this)) as [w|] eqn:E; eauto.
Qed.

(** ** Events of another context *)

(** Contexts from two [createContext] calls differ in identity, whatever
    their default values. *)
Lemma createContext_distinct (dv1 dv2 : value) (s : state) :
  ∃ c1 s1 c2 s2,
    createContext dv1 s = Some (c1, s1) ∧
    createContext dv2 s1 = Some (c2, s2) ∧
    ctx_id c1 ≠ ctx_id c2.
Proof.
  cbv [createContext freshId bind gets modify ret].
  eexists _, _, _, _. split; [reflexivity|]. split; [reflexivity|].
  simpl. lia.
Qed.

(** C5: a listener installed by one context that receives an event of a
    different context (connect, disconnect, update or watch listener alike)
    returns without stopping the event and leaves the whole state as it
    was: no store, listener list or consumer property changes. *)
Theorem foreign_event_ignored (d : node → event → M unit)
    (l : listener) (this : node) (e : event) (s : state) :
  listener_ctx l ≠ event_ctx e →
  invoke d l this e s = Some (false, s).
Proof.
  intros Hne. destruct l as [deco c p|u|k c pr upd co odp|k c h]; simpl in *.
  - unfold onConsumerConnect. by rewrite validate_connect_foreign.
  - unfold onProviderUpdate. by rewrite validate_update_foreign.
  - unfold onDisconnectFromProvider.
    rewrite validate_disconnect_foreign by done.
    cbv [bind ret removeEventListener modify].
    by rewrite removeListener_odp.
  - unfold handleUpdate. by rewrite validate_update_foreign.
Qed.

(** ** The provider answers a connect event *)

(** C4: the provider's handler, on a connect event of its own context,
    calls the consumer's update callback before it returns, with the value
    stored for the provider or else the context default: on return the
    consumer's property holds the transformed value, the callback is
    registered for later updates, and neither the store nor the event log
    has moved in between. *)
Theorem onConsumerConnect_syncs (c : context) (p : prop) (o : consumeOptions)
    (consumer rid k this : node) (s : state) :
  let e := ContextConsumerConnectEvent (ctx_id c)
             (Detail consumer rid (UpdateClosure k c consumer p o)) in
  ∃ s', onConsumerConnect c this e s = Some (true, s') ∧
        props s' !! (consumer, p) =
          Some (apply_transform o
                  (match contextMap s !! (ctx_id c, this) with
                   | Some v => v
                   | None => defaultValue c
                   end)) ∧
        registered this ProviderUpdateTYPE (FOnProviderUpdate k) s' = true ∧
        contextMap s' = contextMap s ∧
        log s' = log s.
Proof.
  intros e. unfold onConsumerConnect, e; simpl.
  rewrite bool_decide_eq_true_2 by done.
  cbv [bind ret gets modify freshId detail_onConnectToProvider retry_stop
       addEventListener provider_get onProviderUpdate validate_update stored
       det_retry det_consumer det_update upd_k upd_ctx upd_consumer upd_prop
       upd_opts].
  rewrite bool_decide_eq_true_2 by done.
  eexists. split; [reflexivity|].
  simpl. autorewrite with frame. simpl. autorewrite with frame.
  repeat split.
  - by rewrite lookup_insert_eq.
  - apply registered_addListener_mono.
    pose proof (registered_addListener this ProviderUpdateTYPE
      (OnProviderUpdate (UpdateClosure k c consumer p o)) s) as H.
    revert H. unfold registered, listeners_of. simpl. 
    by autorewrite with frame.
Qed.

(** ** Dispatch of a connect event *)

Lemma snapshot_registered el ty l s :
  In l (snapshot el ty s) → registered el ty (ref_of l) s = true.
Proof.
  unfold snapshot, registered. intros Hin.
  apply in_map_iff in Hin as ([ty' l'] & <- & Hin).
  apply filter_In in Hin as [Hin Hty]. simpl in Hty.
  apply bool_decide_eq_true in Hty as ->.
  apply existsb_exists. exists (ty, l'). split; [done|].
  unfold same_listener; simpl. by rewrite !bool_decide_eq_true_2.
Qed.

Lemma snapshot_addListener_other n ty el ty' l s :
  n ≠ el ∨ ty ≠ ty' →
  snapshot n ty (addListener el ty' l s) = snapshot n ty s.
Proof.
  intros Hne. unfold addListener. case_match; [done|].
  unfold snapshot, listeners_of; simpl.
  destruct (decide (el = n)) as [->|Hn].
  - destruct Hne as [?|Hty]; [done|].
    rewrite lookup_insert_eq; simpl. rewrite List.filter_app; simpl.
    rewrite bool_decide_eq_false_2; [by rewrite app_nil_r | congruence].
  - by rewrite lookup_insert_ne.
Qed.

(** A listener that does not claim the context of a connect event returns
    at once. *)
Lemma invoke_connect_unclaimed d l this c dt s :
  claims c l = false →
  invoke d l this (ContextConsumerConnectEvent c dt) s = Some (false, s).
Proof.
  destruct l as [deco c' p|u|k c' pr upd co odp|k c' h]; simpl; intros Hc.
  - apply bool_decide_eq_false in Hc.
    unfold onConsumerConnect; simpl.
    rewrite bool_decide_eq_false_2; [done|congruence].
  - done.
  - cbv [bind ret removeEventListener modify onDisconnectFromProvider
         validate_disconnect].
    by rewrite removeListener_odp.
  - done.
Qed.

(** What a claim does to the listener lists. *)
Lemma onConsumerConnect_claim c' this dt s :
  ∃ s', onConsumerConnect c' this (ContextConsumerConnectEvent (ctx_id c') dt) s
          = Some (true, s') ∧
        registered this ProviderUpdateTYPE
          (FOnProviderUpdate (upd_k (det_update dt))) s' = true ∧
        (∀ n, n ≠ this →
           snapshot n ProviderUpdateTYPE s' = snapshot n ProviderUpdateTYPE s).
Proof.
  unfold onConsumerConnect; simpl.
  rewrite bool_decide_eq_true_2 by done.
  cbv [bind ret gets modify freshId detail_onConnectToProvider retry_stop
       addEventListener provider_get onProviderUpdate].
  destruct (validate_update _ _); (eexists; split; [reflexivity|]); split.
  - apply registered_addListener_mono.
    pose proof (registered_addListener this ProviderUpdateTYPE
      (OnProviderUpdate (det_update dt)) s) as H.
    revert H. unfold registered, listeners_of. simpl.
    by autorewrite with frame.
  - intros n Hn. unfold snapshot, listeners_of; simpl.
    pose proof (snapshot_addListener_other n ProviderUpdateTYPE (det_consumer dt)
      ConsumerDisconnectTYPE) as H1.
    unfold snapshot, listeners_of in H1. rewrite H1; [|by right].
    simpl.
    pose proof (snapshot_addListener_other n ProviderUpdateTYPE this
      ProviderUpdateTYPE) as H2.
    unfold snapshot, listeners_of in H2. rewrite H2; [done|by left].
  - apply registered_addListener_mono.
    pose proof (registered_addListener this ProviderUpdateTYPE
      (OnProviderUpdate (det_update dt)) s) as H.
    revert H. unfold registered, listeners_of. simpl.
    by autorewrite with frame.
  - intros n Hn. unfold snapshot, listeners_of; simpl.
    pose proof (snapshot_addListener_other n ProviderUpdateTYPE (det_consumer dt)
      ConsumerDisconnectTYPE) as H1.
    unfold snapshot, listeners_of in H1. rewrite H1; [|by right].
    simpl.
    pose proof (snapshot_addListener_other n ProviderUpdateTYPE this
      ProviderUpdateTYPE) as H2.
    unfold snapshot, listeners_of in H2. rewrite H2; [done|by left].
Qed.

Lemma invokeAll_connect_none d this c dt ls s :
  existsb (claims c) ls = false →
  invokeAll d this (ContextConsumerConnectEvent c dt) ls s = Some (false, s).
Proof.
  induction ls as [|l ls IH]; simpl; [done|].
  intros [Hl Hls]%orb_false_elim.
  cbv [bind gets]. case_match; [|by apply IH].
  rewrite invoke_connect_unclaimed by done. by apply IH.
Qed.

Lemma invokeAll_connect_some d this c dt ls s :
  existsb (claims c) ls = true →
  (∀ l, In l ls → registered this ConsumerConnectTYPE (ref_of l) s = true) →
  ∃ c', ctx_id c' = c ∧
    invokeAll d this (ContextConsumerConnectEvent c dt) ls s =
    onConsumerConnect c' this (ContextConsumerConnectEvent c dt) s.
Proof.
  induction ls as [|l ls IH]; simpl; [done|].
  intros Hex Hreg. cbv [bind gets]. simpl.
  rewrite (Hreg l) by auto.
  destruct (claims c l) eqn:Hl.
  - destruct l as [deco c' p| | |]; simpl in Hl; try done.
    apply bool_decide_eq_true in Hl as <-. exists c'. split; [done|].
    simpl.
    destruct (onConsumerConnect_claim c' this dt s) as (s' & -> & _). done.
  - rewrite invoke_connect_unclaimed by done.
    simpl in Hex. apply IH; auto.
Qed.

Lemma propagate_connect d c dt path s :
  match nearestProvider c path s with
  | None => propagate d path (ContextConsumerConnectEvent c dt) s = Some (tt, s)
  | Some p =>
      ∃ c' s', ctx_id c' = c ∧
        onConsumerConnect c' p (ContextConsumerConnectEvent c dt) s
          = Some (true, s') ∧
        propagate d path (ContextConsumerConnectEvent c dt) s = Some (tt, s')
  end.
Proof.
  unfold nearestProvider.
  induction path as [|el up IH]; simpl; [done|].
  destruct (provides c s el) eqn:Hp.
  - destruct (invokeAll_connect_some d el c dt
      (snapshot el ConsumerConnectTYPE s) s Hp) as (c' & <- & Heq).
    { intros l. apply snapshot_registered. }
    destruct (onConsumerConnect_claim c' el dt s) as (s' & Hs' & _).
    exists c', s'. split; [done|]. split; [done|].
    cbv [bind gets]. simpl. by rewrite Heq, Hs'.
  - cbv [bind gets]. simpl.
    rewrite invokeAll_connect_none by done. apply IH.
Qed.

(** C3: a connect event is claimed by at most one provider, the nearest one
    on the way up from the consumer: after the dispatch the consumer's
    update callback is registered on that provider, and the update
    listeners of every other element are as before; without a provider of
    the context on the path nobody registers anything. *)
Theorem nearest_provider_claims (depth : nat) (el : node) (c : ctxId)
    (dt : detail) (s : state) :
  let e := ContextConsumerConnectEvent c dt in
  ∃ s', dispatchEvent (S depth) el e s = Some (tt, s') ∧
    match nearestProvider c (eventPath el e s) s with
    | Some p =>
        registered p ProviderUpdateTYPE
          (FOnProviderUpdate (upd_k (det_update dt))) s' = true ∧
        ∀ n, n ≠ p →
          snapshot n ProviderUpdateTYPE s' = snapshot n ProviderUpdateTYPE s
    | None =>
        ∀ n, snapshot n ProviderUpdateTYPE s' = snapshot n ProviderUpdateTYPE s
    end.
Proof.
  intros e.
  change (dispatchEvent (S depth) el e s)
    with (dispatchBody (dispatchEvent depth) el e s).
  unfold dispatchBody.
  cbv [bind logEffect modify gets].
  set (s0 := with_log (λ l, l ++ [Dispatched el e]) s).
  assert (Hpath : eventPath el e s0 = eventPath el e s) by done.
  rewrite Hpath.
  pose proof (propagate_connect (dispatchEvent depth) c dt (eventPath el e s) s0)
    as H.
  assert (Hnp : ∀ path, nearestProvider c path s0 = nearestProvider c path s) by done.
  rewrite Hnp in H.
  destruct (nearestProvider c (eventPath el e s) s) as [p|].
  - destruct H as (c' & s' & <- & Hclaim & Hprop).
    exists s'. split; [done|].
    destruct (onConsumerConnect_claim c' p dt s0) as (s'' & Hs'' & Hreg & Hothers).
    unfold e in *. rewrite Hclaim in Hs''. injection Hs'' as <-.
    split; [done|]. intros n Hn. by rewrite Hothers.
  - exists s0. split; [done|]. done.
Qed.

(** ** Detaching *)

Lemma listeners_shrink_refl s : listeners_shrink s s.
Proof. by intros el ty r. Qed.

Lemma listeners_shrink_trans s1 s2 s3 :
  listeners_shrink s1 s2 → listeners_shrink s2 s3 → listeners_shrink s1 s3.
Proof. intros H12 H23 el ty r H. eauto. Qed.

Lemma registered_removeListener el ty r el' ty' r' s :
  registered el ty r (removeListener el' ty' r' s) = true →
  registered el ty r s = true.
Proof.
  unfold registered, removeListener, listeners_of; simpl.
  rewrite lookup_alter. case_decide; [subst|done].
  destruct (listeners s !! el) as [l|]; simpl; [|done].
  rewrite !existsb_exists. intros (x & Hin & Hx).
  apply filter_In in Hin as [Hin _]. eauto.
Qed.

Lemma removeListener_shrink el ty r s :
  listeners_shrink s (removeListener el ty r s).
Proof. intros el' ty' r'. apply registered_removeListener. Qed.

Lemma registered_removeListener_same el ty r s :
  registered el ty r (removeListener el ty r s) = false.
Proof.
  unfold registered, removeListener, listeners_of; simpl.
  rewrite lookup_alter. rewrite decide_True by done.
  destruct (listeners s !! el) as [l|]; simpl; [|done].
  apply not_true_is_false. rewrite existsb_exists. intros (x & Hin & Hx).
  apply filter_In in Hin as [_ Hin]. by rewrite Hx in Hin.
Qed.

(** What a listener can do with a disconnect event: at most remove one
    update listener. *)
Lemma invoke_disconnect d l this c s :
  ∃ s', invoke d l this (ContextConsumerDisconnectEvent c) s = Some (false, s') ∧
    contextMap s' = contextMap s ∧ retries s' = retries s ∧
    cells s' = cells s ∧ log s' = log s ∧ listeners_shrink s s'.
Proof.
  destruct l as [deco c' p|u|k c' pr upd co odp|k c' h]; simpl.
  - exists s. repeat split; auto using listeners_shrink_refl.
  - exists s. repeat split; auto using listeners_shrink_refl.
  - cbv [bind ret removeEventListener modify onDisconnectFromProvider
         validate_disconnect].
    case_bool_decide.
    + rewrite removeListener_odp. eexists. split; [done|].
      repeat split; auto using removeListener_shrink.
    + rewrite removeListener_odp. eexists. split; [done|].
      repeat split; auto using listeners_shrink_refl.
  - exists s. repeat split; auto using listeners_shrink_refl.
Qed.

Lemma invokeAll_disconnect d this c ls s :
  ∃ s', invokeAll d this (ContextConsumerDisconnectEvent c) ls s = Some (false, s') ∧
    contextMap s' = contextMap s ∧ retries s' = retries s ∧
    cells s' = cells s ∧ log s' = log s ∧ listeners_shrink s s'.
Proof.
  revert s. induction ls as [|l ls IH]; intros s; simpl.
  - exists s. repeat split; auto using listeners_shrink_refl.
  - cbv [bind gets]. case_match; [|by apply IH].
    destruct (invoke_disconnect d l this c s)
      as (s1 & -> & Hcm & Hre & Hce & Hlog & Hsh).
    destruct (IH s1) as (s2 & -> & Hcm2 & Hre2 & Hce2 & Hlog2 & Hsh2).
    exists s2. split; [done|].
    repeat split; try congruence. eauto using listeners_shrink_trans.
Qed.

(** Dispatching a disconnect event always returns; it touches neither the
    stores nor the retry dispatchers and adds no listener. *)
Lemma dispatch_disconnect depth el c s :
  ∃ s', dispatchEvent (S depth) el (ContextConsumerDisconnectEvent c) s
          = Some (tt, s') ∧
    contextMap s' = contextMap s ∧ retries s' = retries s ∧
    cells s' = cells s ∧
    log s' = log s ++ [Dispatched el (ContextConsumerDisconnectEvent c)] ∧
    listeners_shrink s s'.
Proof.
  simpl. unfold dispatchBody. cbv [bind logEffect modify gets].
  set (s0 := with_log _ s). simpl.
  destruct (invokeAll_disconnect (dispatchEvent depth) el c
    (snapshot el ConsumerDisconnectTYPE s0) s0)
    as (s1 & H1 & Hcm & Hre & Hce & Hlog & Hsh).
  cbv [bind gets]. rewrite H1. exists s1. split; [done|].
  repeat split; try done.
Qed.

Lemma callStops_calm fs s :
  ∃ s', callStops fs s = Some (tt, s') ∧
    contextMap s' = contextMap s ∧ retries s' = retries s ∧
    cells s' = cells s ∧ log s' = log s ∧ listeners_shrink s s'.
Proof.
  revert s. induction fs as [|f fs IH]; intros s; simpl.
  - exists s. repeat split; auto using listeners_shrink_refl.
  - cbv [bind callStop removeEventListener modify].
    destruct (IH (removeListener (stop_el f) ProviderUpdateTYPE (stop_ref f) s))
      as (s' & -> & Hcm & Hre & Hce & Hlog & Hsh).
    exists s'. split; [done|]. repeat split; try done.
    eauto using listeners_shrink_trans, removeListener_shrink.
Qed.

Lemma detached_refl this s : detached this s s.
Proof. repeat split; auto using listeners_shrink_refl. Qed.

Lemma detached_trans this s1 s2 s3 :
  detached this s1 s2 → detached this s2 s3 → detached this s1 s3.
Proof.
  intros (Hre & Hsh & Hot & Hth & Hce) (Hre' & Hsh' & Hot' & Hth' & Hce').
  split; [congruence|]. split; [eauto using listeners_shrink_trans|].
  split; [intros c n Hn; rewrite Hot' by done; auto|].
  split.
  - intros c. destruct (Hth' c) as [-> | ->]; auto.
  - intros k. destruct (Hce k) as [E1 E2], (Hce' k) as [E1' E2'].
    split; congruence.
Qed.

Lemma cell_of_set_ready k b k' s :
  dispose (cell_of (set_ready k b s) k') = dispose (cell_of s k') ∧
  values (cell_of (set_ready k b s) k') = values (cell_of s k').
Proof.
  unfold set_ready, cell_of; simpl.
  destruct (decide (k = k')) as [->|Hne].
  - by rewrite lookup_insert_eq.
  - by rewrite lookup_insert_ne.
Qed.

Lemma disconnectedHook_detached depth b this s :
  ∃ s', disconnectedHook (dispatchEvent (S depth)) b this s = Some (tt, s') ∧
        detached this s s'.
Proof.
  destruct b as [deco c p|c p o|k d]; unfold disconnectedHook.
  - cbv [bind removeEventListener modify]. eexists. split; [done|].
    split; [done|]. split; [apply removeListener_shrink|]. simpl.
    split; [|split; [|done]].
    + intros c' n Hn. rewrite lookup_delete_ne; [done|congruence].
    + intros c'. destruct (decide (c' = ctx_id c)) as [->|Hne].
      * left. apply lookup_delete_eq.
      * right. rewrite lookup_delete_ne; [done|congruence].
  - destruct (dispatch_disconnect depth this (ctx_id c) s)
      as (s' & -> & Hcm & Hre & Hce & Hlog & Hsh).
    exists s'. split; [done|].
    repeat split; try done; unfold cell_of; rewrite ?Hcm, ?Hce; auto.
  - cbv [bind modify gets].
    destruct (callStops_calm (dispose (cell_of (set_ready k false s) k))
      (set_ready k false s)) as (s' & -> & Hcm & Hre & Hce & Hlog & Hsh).
    exists s'. split; [done|]. unfold detached.
    split; [by rewrite Hre|]. split; [done|].
    rewrite Hcm. simpl. split; [done|]. split; [auto|].
    intros k'. unfold cell_of at 1 3. rewrite Hce.
    apply cell_of_set_ready.
Qed.

Lemma disconnectedCallback_detached depth proto this s :
  ∃ s', disconnectedCallback (dispatchEvent (S depth)) proto this s
          = Some (tt, s') ∧
        detached this s s'.
Proof.
  revert s. induction proto as [|b orig IH]; intros s.
  - exists s. split; [done|]. apply detached_refl.
  - change (disconnectedCallback (dispatchEvent (S depth)) (b :: orig) this s)
      with (bind (disconnectedHook (dispatchEvent (S depth)) b this)
              (λ _, disconnectedCallback (dispatchEvent (S depth)) orig this) s).
    destruct (disconnectedHook_detached depth b this s) as (s1 & H1 & Hd1).
    rewrite (bind_Some _ _ _ _ _ H1).
    destruct (IH s1) as (s2 & H2 & Hd2).
    exists s2. split; [done|]. eauto using detached_trans.
Qed.

(** C6: detaching a provider removes its connect listener and deletes its
    entry from the store of the context, whatever other bindings its type
    carries; the entries of all other elements stay as they were, and [get]
    on the detached provider then returns the context default. *)
Theorem provider_detach_deletes_own_entry (depth : nat) (proto : list binding)
    (deco : nat) (c : context) (p : prop) (this : node) (s : state) :
  In (Provide deco c p) proto →
  ∃ s', disconnectedCallback (dispatchEvent (S depth)) proto this s
          = Some (tt, s') ∧
    registered this ConsumerConnectTYPE (FOnConsumerConnect deco) s' = false ∧
    contextMap s' !! (ctx_id c, this) = None ∧
    (∀ c' n, n ≠ this → contextMap s' !! (c', n) = contextMap s !! (c', n)) ∧
    provider_get c this s' = Some (defaultValue c, s').
Proof.
  intros Hin.
  assert (∃ s', disconnectedCallback (dispatchEvent (S depth)) proto this s
          = Some (tt, s') ∧
    registered this ConsumerConnectTYPE (FOnConsumerConnect deco) s' = false ∧
    contextMap s' !! (ctx_id c, this) = None ∧
    (∀ c' n, n ≠ this → contextMap s' !! (c', n) = contextMap s !! (c', n)))
    as (s' & Hrun & Hreg & Hnone & Hothers).
  { revert s. induction proto as [|b orig IH]; intros s; [done|].
    change (disconnectedCallback (dispatchEvent (S depth)) (b :: orig) this s)
      with (bind (disconnectedHook (dispatchEvent (S depth)) b this)
              (λ _, disconnectedCallback (dispatchEvent (S depth)) orig this) s).
    destruct Hin as [->|Hin].
    - cbv [disconnectedHook bind removeEventListener modify].
      set (s1 := with_contextMap _ _).
      destruct (disconnectedCallback_detached depth orig this s1)
        as (s2 & H2 & Hre & Hsh & Hot & Hth & _).
      exists s2. split; [done|]. split; [|split].
      + apply not_true_is_false. intros Ht. apply Hsh in Ht.
        revert Ht. unfold s1.
        change (registered this ConsumerConnectTYPE (FOnConsumerConnect deco)
                  (removeListener this ConsumerConnectTYPE
                     (FOnConsumerConnect deco) s) = true → False).
        by rewrite registered_removeListener_same.
      + destruct (Hth (ctx_id c)) as [-> | ->]; [done|].
        unfold s1; simpl. apply lookup_delete_eq.
      + intros c' n Hn. rewrite Hot by done. unfold s1; simpl.
        rewrite lookup_delete_ne; [done|congruence].
    - destruct (disconnectedHook_detached depth b this s)
        as (s1 & H1 & Hre & Hsh & Hot & Hth & _).
      rewrite (bind_Some _ _ _ _ _ H1).
      destruct (IH Hin s1) as (s2 & H2 & Hreg & Hnone & Hothers).
      exists s2. split; [done|]. split; [done|]. split; [done|].
      intros c' n Hn. rewrite Hothers by done. auto. }
  exists s'. repeat split; try done.
  unfold provider_get, gets, stored. by rewrite Hnone.
Qed.

(** ** Retries and detaching *)

Lemma onConsumerConnect_log c' this e s b s' :
  onConsumerConnect c' this e s = Some (b, s') → log s' = log s.
Proof.
  unfold onConsumerConnect. destruct (validate_connect c' e) as [dt|].
  - cbv [bind ret gets modify freshId detail_onConnectToProvider retry_stop
         addEventListener provider_get onProviderUpdate].
    destruct (validate_update _ _); intros [= <- <-]; by frame_simpl.
  - by intros [= <- <-].
Qed.

(** A claim stops the dispatcher named in the event (line 204). *)
Lemma onConsumerConnect_stops c' this dt s s' dsp :
  onConsumerConnect c' this (ContextConsumerConnectEvent (ctx_id c') dt) s
    = Some (true, s') →
  retries s !! det_retry dt = Some dsp →
  ∃ dsp', retries s' !! det_retry dt = Some dsp' ∧ dis_stopped dsp' = true.
Proof.
  unfold onConsumerConnect; simpl.
  rewrite bool_decide_eq_true_2 by done.
  cbv [bind ret gets modify freshId detail_onConnectToProvider retry_stop
       addEventListener provider_get onProviderUpdate].
  intros Hrun Hdsp.
  destruct (validate_update _ _); injection Hrun as <-; frame_simpl;
    rewrite lookup_alter, decide_True, Hdsp by done; simpl; eauto.
Qed.

Lemma dispatch_connect_log depth el c dt s :
  ∃ s', dispatchEvent (S depth) el (ContextConsumerConnectEvent c dt) s
          = Some (tt, s') ∧
        log s' = log s ++ [Dispatched el (ContextConsumerConnectEvent c dt)].
Proof.
  change (dispatchEvent (S depth) el (ContextConsumerConnectEvent c dt) s)
    with (dispatchBody (dispatchEvent depth) el
            (ContextConsumerConnectEvent c dt) s).
  unfold dispatchBody. cbv [bind logEffect modify gets].
  set (s0 := with_log _ s). set (path := eventPath _ _ _).
  pose proof (propagate_connect (dispatchEvent depth) c dt path s0) as H.
  destruct (nearestProvider c path s0) as [p|].
  - destruct H as (c' & s' & <- & Hclaim & ->). exists s'. split; [done|].
    by rewrite (onConsumerConnect_log _ _ _ _ _ _ Hclaim).
  - rewrite H. by exists s0.
Qed.

(** A stopped dispatcher does nothing when its timer fires. *)
Lemma retry_tick_stopped (d : node → event → M unit) rid dsp s :
  retries s !! rid = Some dsp → dis_stopped dsp = true →
  retry_tick d rid s = Some (tt, s).
Proof.
  intros Hd Hs. unfold retry_tick. cbv [bind gets]. by rewrite Hd, Hs.
Qed.

(** C7, as the code has it: detaching a consumer does not reach the retry
    dispatchers.  [disconnectedCallback] returns with every dispatcher as it
    was, so a retry that was scheduled for a consumer still in discovery
    fires after the detach and dispatches the connect event again.  [stop]
    runs only where a provider claims the event, and a stopped dispatcher
    ignores its timer. *)
Theorem detach_leaves_retry_scheduled (depth : nat) (proto : list binding)
    (this rid : node) (dsp : dispatcher) (c : ctxId) (dt : detail) (s : state) :
  retries s !! rid = Some dsp →
  dis_stopped dsp = false →
  dis_scheduled dsp = true →
  dis_event dsp = ContextConsumerConnectEvent c dt →
  det_retry dt = rid →
  (∃ s1 s2 reported,
     disconnectedCallback (dispatchEvent (S depth)) proto this s = Some (tt, s1) ∧
     retries s1 = retries s ∧
     retry_tick (dispatchEvent (S depth)) rid s1 = Some (tt, s2) ∧
     log s2 = log s1 ++ reported ++ [Dispatched (dis_el dsp) (dis_event dsp)]) ∧
  (∀ c' p s', ctx_id c' = c →
     onConsumerConnect c' p (dis_event dsp) s = Some (true, s') →
     ∃ dsp', retries s' !! rid = Some dsp' ∧ dis_stopped dsp' = true ∧
             retry_tick (dispatchEvent (S depth)) rid s' = Some (tt, s')).
Proof.
  intros Hdsp Hstop Hsched Hev Hrid. split.
  - destruct (disconnectedCallback_detached depth proto this s)
      as (s1 & H1 & Hre & _).
    unfold retry_tick. cbv [bind gets].
    exists s1.
    rewrite Hre, Hdsp, Hstop, Hsched. cbn [orb negb].
    set (report := if bool_decide (retryThreshold < dis_attempt dsp) then _ else _).
    assert (∃ sr reported, report s1 = Some (tt, sr) ∧
              log sr = log s1 ++ reported) as (sr & reported & -> & Hlr).
    { unfold report. case_bool_decide.
      - destruct (dis_onFail dsp) as [cb|].
        + eexists _, [_]. split; [reflexivity|]. done.
        + exists s1, []. by rewrite app_nil_r.
      - exists s1, []. by rewrite app_nil_r. }
    rewrite Hev.
    destruct (dispatch_connect_log depth (dis_el dsp) c dt sr) as (s2 & -> & Hl2).
    eexists _, reported. split; [done|]. split; [done|]. split; [reflexivity|].
    cbn. rewrite Hl2, Hlr. by rewrite <- app_assoc.
  - intros c' p s' <- Hclaim. rewrite Hev in Hclaim. subst rid.
    destruct (onConsumerConnect_stops _ _ _ _ _ _ Hclaim Hdsp) as (dsp' & Hd' & Hs').
    exists dsp'. split; [done|]. split; [done|].
    by apply (retry_tick_stopped _ _ dsp').
Qed.

(** ** Dispatch of an update event *)

Lemma acyclic_listeners_of bound s el x :
  acyclic bound s = true → In x (listeners_of s el) →
  acyclic_listener bound x = true.
Proof.
  unfold acyclic, listeners_of. intros Hall Hin.
  destruct (listeners s !! el) as [ls|] eqn:E; [|done]. simpl in Hin.
  rewrite forallb_forall in Hall.
  specialize (Hall (el, ls)). simpl in Hall.
  rewrite forallb_forall in Hall. apply Hall; [|done].
  apply list_elem_of_In. by apply elem_of_map_to_list.
Qed.

Lemma acyclic_same_listeners bound s s' :
  listeners s' = listeners s → acyclic bound s' = acyclic bound s.
Proof. unfold acyclic. by intros ->. Qed.

Lemma updates_from_later c el tl :
  Forall (later c) tl → updates_from c el tl = [].
Proof.
  induction 1 as [|x tl Hx _ IH]; [done|].
  destruct x as [el' [| |c' v]| |]; simpl in *; try done.
  rewrite bool_decide_eq_false_2; [done|]. intros [_ ->]. lia.
Qed.

Lemma settled_refl c s : settled c s s.
Proof.
  repeat split; try done. exists []. by rewrite app_nil_r.
Qed.

Lemma settled_trans c s1 s2 s3 :
  settled c s1 s2 → settled c s2 s3 → settled c s1 s3.
Proof.
  intros (Hl & Hr & Hp & Hf & Hc & Hk & tl & Hlog & Htl)
         (Hl' & Hr' & Hp' & Hf' & Hc' & Hk' & tl' & Hlog' & Htl').
  repeat split; try congruence.
  - intros c' n Hle. rewrite Hc' by done. auto.
  - destruct (Hk k), (Hk' k). congruence.
  - destruct (Hk k), (Hk' k). congruence.
  - exists (tl ++ tl'). split.
    + rewrite Hlog', Hlog. by rewrite <- app_assoc.
    + by apply Forall_app.
Qed.

Lemma later_mono c c' x : c ≤ c' → later c' x → later c x.
Proof. destruct x; simpl; [lia|done..]. Qed.

Lemma settled_weaken c c' s s' :
  c ≤ c' → settled c' s s' → settled c s s'.
Proof.
  intros Hle (Hl & Hr & Hp & Hf & Hc & Hk & tl & Hlog & Htl).
  repeat split; try done.
  - intros c0 n H0. apply Hc. lia.
  - apply Hk.
  - apply Hk.
  - exists tl. split; [done|].
    eapply Forall_impl; [done|]. intros x. by apply later_mono.
Qed.

Lemma settled_props c f s : settled c s (with_props f s).
Proof.
  repeat split; try done. exists []. by rewrite app_nil_r.
Qed.

Lemma settled_log c x s :
  later c x → settled c s (with_log (λ l, l ++ [x]) s).
Proof.
  intros Hx. repeat split; try done. exists [x]. split; [done|]. by constructor.
Qed.

Lemma settled_store c c' n v s :
  c < c' → settled c s (with_contextMap <[(c', n) := v]> s).
Proof.
  intros Hlt. repeat split; try done.
  - intros c0 n0 H0. simpl. rewrite lookup_insert_ne; [done|].
    intros [= -> ->]. lia.
  - exists []. by rewrite app_nil_r.
Qed.

Lemma settled_set_slot c k i v s : settled c s (set_slot k i v s).
Proof.
  repeat split; try done.
  - unfold set_slot, cell_of; simpl.
    destruct (decide (k = k0)) as [->|Hne].
    + by rewrite lookup_insert_eq.
    + by rewrite lookup_insert_ne.
  - unfold set_slot, cell_of; simpl.
    destruct (decide (k = k0)) as [->|Hne].
    + by rewrite lookup_insert_eq.
    + by rewrite lookup_insert_ne.
  - exists []. by rewrite app_nil_r.
Qed.

Section UpdateListeners.

(** The listeners of an update event of context [c], run with a
    [dispatchEvent] that is known to return for the newer contexts. *)
Variable bound : nat.
Variable c : ctxId.
Variable d : node → event → M unit.
Hypothesis d_newer : ∀ c' el v s,
  c < c' → c' ≤ bound → acyclic bound s = true →
  ∃ s', d el (ContextProviderUpdateEvent c' v) s = Some (tt, s') ∧ settled c s s'.

Lemma provider_set_newer c' this v s :
  c < ctx_id c' → ctx_id c' ≤ bound → acyclic bound s = true →
  ∃ s', provider_set d c' this v s = Some (tt, s') ∧ settled c s s'.
Proof.
  intros Hlt Hle Hac. unfold provider_set, provider_get. cbv [bind gets].
  destruct (notEqual v _).
  - cbv [modify].
    set (s1 := with_contextMap _ s).
    destruct (d_newer (ctx_id c') this v s1) as (s' & -> & Hs'); try done.
    exists s'. split; [done|].
    eapply settled_trans; [|done]. by apply settled_store.
  - exists s. split; [done|]. apply settled_refl.
Qed.

Lemma callHandle_newer ty k u h v s :
  ctx_id u = c →
  acyclic_listener bound (ty, HandleUpdate k u h) = true →
  acyclic bound s = true →
  ∃ s', callHandle d h v s = Some (tt, s') ∧ settled c s s'.
Proof.
  intros Hu Hl Hac. destruct h as [h|cell dv i this]; simpl.
  - eexists. split; [done|]. by apply settled_log.
  - unfold acyclic_listener in Hl; simpl in Hl.
    apply bool_decide_eq_true in Hl as [Hlt Hle]. rewrite Hu in Hlt.
    cbv [bind modify gets]. destruct (ready _).
    + unfold sync. cbv [bind gets].
      destruct (provider_set_newer (der_ctx dv) this
        (derivation dv (values (cell_of (set_slot cell i v s) cell)))
        (set_slot cell i v s)) as (s' & -> & Hs'); try done.
      exists s'. split; [done|].
      eapply settled_trans; [|done]. apply settled_set_slot.
    + eexists. split; [done|]. apply settled_set_slot.
Qed.

Lemma invoke_update ty l this v s :
  acyclic_listener bound (ty, l) = true →
  acyclic bound s = true →
  ∃ s', invoke d l this (ContextProviderUpdateEvent c v) s = Some (false, s') ∧
        settled c s s'.
Proof.
  intros Hl Hac. destruct l as [deco c' p|u|k c' pr upd co odp|k c' h]; simpl.
  - exists s. split; [done|]. apply settled_refl.
  - unfold onProviderUpdate; simpl. case_bool_decide.
    + eexists. split; [done|]. apply settled_props.
    + exists s. split; [done|]. apply settled_refl.
  - cbv [bind ret removeEventListener modify onDisconnectFromProvider
         validate_disconnect].
    rewrite removeListener_odp. exists s. split; [done|]. apply settled_refl.
  - unfold handleUpdate; simpl. case_bool_decide as Hc.
    + destruct (callHandle_newer ty k c' h v s) as (s' & Hs' & Hset); try done.
      exists s'. split; [|done]. cbv [bind]. by rewrite Hs'.
    + exists s. split; [done|]. apply settled_refl.
Qed.

Lemma invokeAll_update this v ls s :
  (∀ l, In l ls → acyclic_listener bound (ProviderUpdateTYPE, l) = true) →
  acyclic bound s = true →
  ∃ s', invokeAll d this (ContextProviderUpdateEvent c v) ls s = Some (false, s') ∧
        settled c s s'.
Proof.
  revert s. induction ls as [|l ls IH]; intros s Hls Hac; simpl.
  - exists s. split; [done|]. apply settled_refl.
  - cbv [bind gets]. case_match.
    + destruct (invoke_update ProviderUpdateTYPE l this v s)
        as (s1 & -> & Hs1); [auto using in_eq|done|].
      destruct (IH s1) as (s2 & -> & Hs2); [auto using in_cons| |].
      { destruct Hs1 as [Hl _]. by rewrite (acyclic_same_listeners _ _ _ Hl). }
      exists s2. split; [done|]. eauto using settled_trans.
    + apply IH; auto using in_cons.
Qed.

Lemma dispatchBody_update el v s :
  acyclic bound s = true →
  ∃ s', dispatchBody d el (ContextProviderUpdateEvent c v) s = Some (tt, s') ∧
        settled c
          (with_log (λ l, l ++ [Dispatched el (ContextProviderUpdateEvent c v)]) s)
          s'.
Proof.
  intros Hac. unfold dispatchBody. cbv [bind logEffect modify gets].
  set (s0 := with_log _ s). simpl.
  destruct (invokeAll_update el v (snapshot el ProviderUpdateTYPE s0) s0)
    as (s' & Hs' & Hset); [|done|].
  { intros l Hin. apply (acyclic_listeners_of bound s0 el); [done|].
    unfold snapshot in Hin. apply in_map_iff in Hin as ([ty l'] & <- & Hin).
    apply filter_In in Hin as [Hin Hty]. simpl in *.
    by apply bool_decide_eq_true in Hty as ->. }
  cbv [bind gets]. rewrite Hs'. by exists s'.
Qed.

End UpdateListeners.

(** The dispatch of an update event returns once the nesting bound exceeds
    the number of contexts newer than the event's. *)
Lemma dispatch_update bound depth : ∀ c el v s,
  bound - c < depth → acyclic bound s = true →
  ∃ s', dispatchEvent depth el (ContextProviderUpdateEvent c v) s = Some (tt, s') ∧
        settled c
          (with_log (λ l, l ++ [Dispatched el (ContextProviderUpdateEvent c v)]) s)
          s'.
Proof.
  induction depth as [|depth IH]; intros c el v s Hd Hac; [lia|].
  apply (dispatchBody_update bound c (dispatchEvent depth)); [|done].
  intros c' el' v' s1 Hlt Hle Hac1.
  destruct (IH c' el' v' s1) as (s' & Hs' & Hset); [lia|done|].
  exists s'. split; [done|].
  apply (settled_trans _ _
    (with_log (λ l, l ++ [Dispatched el' (ContextProviderUpdateEvent c' v')]) s1)).
  - apply settled_log. simpl. lia.
  - eapply settled_weaken; [|done]. lia.
Qed.

(** ** Setting the provider property *)

Lemma provider_set_spec bound depth (c : context) (this : node) (v : value) s :
  bound - ctx_id c < depth → acyclic bound s = true →
  ∃ s', provider_set (dispatchEvent depth) c this v s = Some (tt, s') ∧
    if notEqual v (match contextMap s !! (ctx_id c, this) with
                   | Some w => w
                   | None => defaultValue c
                   end)
    then contextMap s' !! (ctx_id c, this) = Some v ∧
         listeners s' = listeners s ∧
         ∃ tl, log s' = log s ++
                 Dispatched this (ContextProviderUpdateEvent (ctx_id c) v) :: tl ∧
               Forall (later (ctx_id c)) tl
    else s' = s.
Proof.
  intros Hd Hac. unfold provider_set, provider_get, stored. cbv [bind gets].
  destruct (notEqual v _); [|by exists s].
  cbv [modify]. set (s1 := with_contextMap _ s).
  destruct (dispatch_update bound depth (ctx_id c) this v s1)
    as (s' & -> & Hl & _ & _ & _ & Hc & _ & tl & Hlog & Htl); [done..|].
  exists s'. split; [done|]. split; [|split; [done|]].
  - rewrite Hc by done. unfold s1; simpl. apply lookup_insert_eq.
  - exists tl. split; [|done]. rewrite Hlog. simpl. by rewrite <- app_assoc.
Qed.

(** C1, as the code has it: [set(P, v1)] followed by [set(P, v2)] with
    [v2] equal to [v1] dispatches at most one update event of the context
    from [P].  When [v1] differs from the value [P] had (stored or default),
    the first call stores [v1] and dispatches exactly one update carrying
    it, and the second call changes nothing.  When [v1] is equal to it, the
    first call is a no-op (no store write, no event), and the second call
    behaves as a single [set]: a no-op on an equal value, one store write
    and exactly one update carrying the value otherwise. *)
Theorem equal_set_dispatches_at_most_once (bound depth : nat) (c : context)
    (this : node) (v1 v2 : value) (s : state) :
  acyclic bound s = true →
  bound - ctx_id c < depth →
  notEqual v2 v1 = false →
  ∃ s1 s2 added,
    provider_set (dispatchEvent depth) c this v1 s = Some (tt, s1) ∧
    provider_set (dispatchEvent depth) c this v2 s1 = Some (tt, s2) ∧
    log s2 = log s ++ added ∧
    let previous := match contextMap s !! (ctx_id c, this) with
                    | Some w => w
                    | None => defaultValue c
                    end in
    if notEqual v1 previous then
      contextMap s1 !! (ctx_id c, this) = Some v1 ∧
      s2 = s1 ∧
      updates_from (ctx_id c) this added = [v1]
    else
      s1 = s ∧
      if notEqual v2 previous then
        contextMap s2 !! (ctx_id c, this) = Some v2 ∧
        updates_from (ctx_id c) this added = [v2]
      else s2 = s ∧ added = [].
Proof.
  intros Hac Hd Heq.
  destruct (provider_set_spec bound depth c this v1 s Hd Hac) as (s1 & H1 & Hs1).
  destruct (provider_set_spec bound depth c this v2 s Hd Hac) as (s2' & H2' & Hs2').
  cbv zeta.
  set (previous := match contextMap s !! (ctx_id c, this) with
                   | Some w => w
                   | None => defaultValue c
                   end) in *.
  destruct (notEqual v1 previous) eqn:Hne1.
  - destruct Hs1 as (Hst & Hl & tl & Hlog & Htl).
    assert (Hac1 : acyclic bound s1 = true)
      by by rewrite (acyclic_same_listeners _ _ _ Hl).
    destruct (provider_set_spec bound depth c this v2 s1 Hd Hac1)
      as (s2 & H2 & Hs2).
    rewrite Hst, Heq in Hs2. subst s2.
    eexists s1, s1, _. split; [done|]. split; [done|]. split; [done|].
    split; [done|]. split; [done|].
    simpl. rewrite bool_decide_eq_true_2 by done.
    by rewrite updates_from_later.
  - subst s1.
    destruct (notEqual v2 previous) eqn:Hne2.
    + destruct Hs2' as (Hst & Hl & tl & Hlog & Htl).
      eexists s, s2', _. split; [done|]. split; [done|]. split; [done|].
      split; [done|]. split; [done|].
      simpl. rewrite bool_decide_eq_true_2 by done.
      by rewrite updates_from_later.
    + subst s2'. exists s, s, []. rewrite app_nil_r. done.
Qed.

(** ** Watching *)

Lemma addListener_new el ty l s :
  registered el ty (ref_of l) s = false →
  addListener el ty l s =
  with_listeners <[el := listeners_of s el ++ [(ty, l)]]> s.
Proof. unfold addListener. by intros ->. Qed.

Lemma filter_remove_last {A} (f : A → bool) (l : list A) (x : A) :
  existsb f l = false → f x = true →
  List.filter (λ y, negb (f y)) (l ++ [x]) = l.
Proof.
  intros Hl Hx. rewrite List.filter_app. simpl. rewrite Hx. simpl.
  rewrite app_nil_r. apply filter_keep_all. intros y Hy.
  apply negb_true_iff. apply not_true_is_false. intros Hfy.
  assert (existsb f l = true) by (apply existsb_exists; eauto). congruence.
Qed.

(** C9: [watch] calls the handler exactly once while subscribing, with
    the element's stored value or else the context default, and only then
    registers its update listener; the function it returns removes that
    listener again, which leaves every listener list as it was before the
    subscription, so that the handler is no longer reached. *)
Theorem watch_calls_handler_once (d : node → event → M unit) (c : context)
    (el : node) (h : nat) (s : state) :
  registered el ProviderUpdateTYPE (FHandleUpdate (fresh s)) s = false →
  ∃ unsubscribe s1 s2,
    watch d c el (HUser h) s = Some (unsubscribe, s1) ∧
    log s1 = log s ++ [Handled h (match contextMap s !! (ctx_id c, el) with
                                  | Some v => v
                                  | None => defaultValue c
                                  end)] ∧
    snapshot el ProviderUpdateTYPE s1 =
      snapshot el ProviderUpdateTYPE s ++ [HandleUpdate (fresh s) c (HUser h)] ∧
    callStop unsubscribe s1 = Some (tt, s2) ∧
    (∀ n, listeners_of s2 n = listeners_of s n) ∧
    log s2 = log s1.
Proof.
  intros Hnew. unfold watch, provider_get, stored.
  cbv [bind ret gets modify callHandle logEffect freshId addEventListener
       callStop removeEventListener stop_el stop_ref].
  simpl. 
  set (s0 := with_fresh S (with_log _ s)).
  assert (Hnew0 : registered el ProviderUpdateTYPE
            (ref_of (HandleUpdate (fresh s) c (HUser h))) s0 = false) by done.
  rewrite (addListener_new _ _ _ _ Hnew0).
  eexists _, _, _. split; [reflexivity|]. split; [done|]. split; [|split; [reflexivity|]].
  - unfold snapshot, listeners_of; simpl. rewrite lookup_insert_eq; simpl.
    rewrite List.filter_app, map_app. done.
  - split; [|done]. intros n. unfold removeListener, listeners_of; simpl.
    rewrite lookup_alter. case_decide as Hn.
    + subst n. rewrite lookup_insert_eq. simpl.
      apply filter_remove_last; [done|].
      unfold same_listener; simpl. by rewrite !bool_decide_eq_true_2.
    + by rewrite lookup_insert_ne.
Qed.

(** ** Derived contexts *)

Lemma acyclic_intro bound s :
  (∀ el x, In x (listeners_of s el) → acyclic_listener bound x = true) →
  acyclic bound s = true.
Proof.
  intros H. unfold acyclic. apply forallb_forall. intros [el ls] Hin.
  apply list_elem_of_In, elem_of_map_to_list in Hin. simpl.
  apply forallb_forall. intros x Hx. apply (H el).
  unfold listeners_of. by rewrite Hin.
Qed.

Lemma acyclic_addListener bound el ty l s :
  acyclic bound s = true → acyclic_listener bound (ty, l) = true →
  acyclic bound (addListener el ty l s) = true.
Proof.
  intros Hac Hl. unfold addListener. case_match; [done|].
  apply acyclic_intro. intros n x. unfold listeners_of at 1; simpl.
  destruct (decide (el = n)) as [->|Hne].
  - rewrite lookup_insert_eq; simpl. intros [Hin|[<-|[]]]%in_app_or; [|done].
    by apply (acyclic_listeners_of bound s n).
  - rewrite lookup_insert_ne by done. intros Hin.
    by apply (acyclic_listeners_of bound s n).
Qed.

Lemma cells_kept_refl s : cells_kept s s.
Proof. by intros k. Qed.

Lemma cells_kept_trans s1 s2 s3 :
  cells_kept s1 s2 → cells_kept s2 s3 → cells_kept s1 s3.
Proof. intros H12 H23 k. destruct (H12 k), (H23 k). split; congruence. Qed.

Lemma provider_set_frame bound depth (c : context) (this : node) (v : value) s :
  bound - ctx_id c < depth → acyclic bound s = true →
  ∃ s', provider_set (dispatchEvent depth) c this v s = Some (tt, s') ∧
        listeners s' = listeners s ∧ fresh s' = fresh s ∧ cells_kept s s'.
Proof.
  intros Hd Hac. unfold provider_set, provider_get, stored. cbv [bind gets].
  destruct (notEqual v _); [|by exists s].
  cbv [modify]. set (s1 := with_contextMap _ s).
  destruct (dispatch_update bound depth (ctx_id c) this v s1)
    as (s' & -> & Hl & _ & _ & Hf & _ & Hk & _); [done..|].
  by exists s'.
Qed.

Lemma cells_kept_set_slot k i v s : cells_kept s (set_slot k i v s).
Proof.
  intros k'. unfold set_slot, cell_of; simpl.
  destruct (decide (k = k')) as [->|Hne].
  - by rewrite lookup_insert_eq.
  - by rewrite lookup_insert_ne.
Qed.

(** Subscribing a slot listener: the handler call may run [sync], the
    listener is new, nothing is pushed to [dispose] yet. *)
Lemma watch_slot bound depth (u : context) k (d : derived) i this s :
  acyclic bound s = true →
  ctx_id u < ctx_id (der_ctx d) ≤ bound →
  bound - ctx_id (der_ctx d) < depth →
  ∃ s', watch (dispatchEvent depth) u this (HDerivedSlot k d i this) s
          = Some (StopFn this (FHandleUpdate (fresh s)), s') ∧
        acyclic bound s' = true ∧ fresh s' = S (fresh s) ∧ cells_kept s s'.
Proof.
  intros Hac Hu Hd. unfold watch, provider_get. cbv [bind gets modify callHandle].
  set (s1 := set_slot k i _ s).
  assert (∃ s2, (if ready (cell_of s1 k) then sync (dispatchEvent depth) k d this
                 else ret tt) s1 = Some (tt, s2) ∧
                listeners s2 = listeners s ∧ fresh s2 = fresh s ∧
                cells_kept s s2) as (s2 & -> & Hl & Hf & Hk).
  { destruct (ready _).
    - unfold sync. cbv [bind gets].
      destruct (provider_set_frame bound depth (der_ctx d) this
        (derivation d (values (cell_of s1 k))) s1) as (s2 & -> & Hl & Hf & Hk);
        [done|done|].
      exists s2. split; [done|]. split; [done|]. split; [done|].
      eapply cells_kept_trans; [|done]. apply cells_kept_set_slot.
    - exists s1. split; [done|]. split; [done|]. split; [done|].
      apply cells_kept_set_slot. }
  cbv [freshId bind gets modify ret addEventListener]. rewrite Hf.
  eexists. split; [reflexivity|]. split; [|split].
  - apply acyclic_addListener.
    + rewrite <- Hac. by apply acyclic_same_listeners.
    + unfold acyclic_listener; simpl. by apply bool_decide_eq_true.
  - frame_simpl. congruence.
  - intros k'. unfold cell_of. frame_simpl. apply Hk.
Qed.

Lemma cell_of_push_dispose k f k' s :
  cell_of (push_dispose k f s) k' =
  if decide (k = k')
  then Cell (ready (cell_of s k)) (values (cell_of s k)) (dispose (cell_of s k) ++ [f])
  else cell_of s k'.
Proof.
  unfold push_dispose, cell_of at 1; simpl. case_decide as Hk.
  - subst. by rewrite lookup_insert_eq.
  - by rewrite lookup_insert_ne.
Qed.

Lemma stops_S this k0 n :
  stops this k0 (S n) = StopFn this (FHandleUpdate k0) :: stops this (S k0) n.
Proof.
  unfold stops. simpl. rewrite Nat.add_0_r. f_equal.
  rewrite <- seq_shift, map_map. apply map_ext. intros j. do 2 f_equal. lia.
Qed.

Lemma watchAll_spec bound depth k (d : derived) this : ∀ cs i s,
  acyclic bound s = true →
  (∀ u, In u cs → ctx_id u < ctx_id (der_ctx d) ≤ bound) →
  bound - ctx_id (der_ctx d) < depth →
  ∃ s', watchAll (dispatchEvent depth) k d this i cs s = Some (tt, s') ∧
        acyclic bound s' = true ∧
        fresh s' = fresh s + length cs ∧
        ready (cell_of s' k) = ready (cell_of s k) ∧
        dispose (cell_of s' k) =
          dispose (cell_of s k) ++ stops this (fresh s) (length cs).
Proof.
  induction cs as [|u cs IH]; intros i s Hac Hcs Hd.
  - exists s. split; [done|]. split; [done|]. split; [simpl; lia|].
    split; [done|]. by rewrite app_nil_r.
  - change (watchAll (dispatchEvent depth) k d this i (u :: cs) s)
      with (bind (watch (dispatchEvent depth) u this (HDerivedSlot k d i this))
              (λ stop, modify (push_dispose k stop) ;;
                       watchAll (dispatchEvent depth) k d this (S i) cs) s).
    destruct (watch_slot bound depth u k d i this s)
      as (s1 & H1 & Hac1 & Hf1 & Hk1); [done|auto using in_eq|done|].
    rewrite (bind_Some _ _ _ _ _ H1). cbv [bind modify].
    set (s2 := push_dispose k _ s1).
    destruct (IH (S i) s2) as (s3 & -> & Hac3 & Hf3 & Hr3 & Hd3);
      [done|auto using in_cons|done|].
    exists s3. split; [done|]. split; [done|].
    destruct (Hk1 k) as [Hr1 Hd1].
    unfold s2 in Hf3, Hr3, Hd3. rewrite cell_of_push_dispose in Hr3, Hd3.
    rewrite decide_True in Hr3, Hd3 by done. simpl in *.
    split; [lia|]. split; [congruence|].
    rewrite Hd3, Hd1, Hf1, stops_S. by rewrite <- app_assoc.
Qed.

(** A derived context is newer than the contexts it is derived from. *)
Lemma derivedContext_ok (cs : list context) (f : list value → value) (s : state) :
  Forall (λ u, ctx_id u < fresh s) cs →
  ∃ d s', derivedContext cs f s = Some (d, s') ∧
          derived_ok (ctx_id (der_ctx d)) d = true.
Proof.
  intros Hcs. cbv [derivedContext createContext freshId bind gets modify ret].
  eexists _, _. split; [reflexivity|]. unfold derived_ok; simpl.
  apply andb_true_intro. split; [|by apply bool_decide_eq_true].
  apply forallb_forall. intros u Hu. apply bool_decide_eq_true.
  rewrite Forall_forall in Hcs. apply list_elem_of_In, Hcs in Hu. lia.
Qed.

Lemma derived_ok_elim bound (d : derived) :
  derived_ok bound d = true →
  ∀ u, In u (der_contexts d) → ctx_id u < ctx_id (der_ctx d) ≤ bound.
Proof.
  unfold derived_ok. intros [Hall Hle]%andb_prop u Hu.
  rewrite forallb_forall in Hall. specialize (Hall u Hu).
  apply bool_decide_eq_true in Hall, Hle. lia.
Qed.

Lemma listeners_of_removeListener el ty r s n x :
  In x (listeners_of (removeListener el ty r s) n) → In x (listeners_of s n).
Proof.
  unfold removeListener, listeners_of; simpl. rewrite lookup_alter.
  case_decide; [subst|done].
  destruct (listeners s !! n); simpl; [|done].
  by intros [? _]%filter_In.
Qed.

Lemma acyclic_removeListener bound el ty r s :
  acyclic bound s = true → acyclic bound (removeListener el ty r s) = true.
Proof.
  intros Hac. apply acyclic_intro. intros n x Hin.
  apply (acyclic_listeners_of bound s n); [done|].
  by apply listeners_of_removeListener in Hin.
Qed.

(** Running the [dispose] list removes the listeners it names; the list
    itself stays. *)
Lemma callStops_spec bound fs s :
  ∃ s', callStops fs s = Some (tt, s') ∧
    cells s' = cells s ∧ fresh s' = fresh s ∧
    (acyclic bound s = true → acyclic bound s' = true) ∧
    listeners_shrink s s' ∧
    ∀ f, In f fs →
      registered (stop_el f) ProviderUpdateTYPE (stop_ref f) s' = false.
Proof.
  revert s. induction fs as [|f fs IH]; intros s; simpl.
  - exists s. repeat split; auto using listeners_shrink_refl. by intros f [].
  - cbv [bind callStop removeEventListener modify].
    set (s1 := removeListener _ _ _ s).
    destruct (IH s1) as (s' & -> & Hce & Hf & Hac & Hsh & Hgone).
    exists s'. split; [done|]. split; [done|]. split; [done|].
    split; [|split].
    + intros H. apply Hac. by apply acyclic_removeListener.
    + eauto using listeners_shrink_trans, removeListener_shrink.
    + intros f' [<-|Hin]; [|auto].
      apply not_true_is_false. intros Ht. apply Hsh in Ht.
      unfold s1 in Ht. by rewrite registered_removeListener_same in Ht.
Qed.

(** The hooks of a type decorated by [provideDerivedContext] (and by nothing
    else). *)
Lemma derived_connected bound depth deco k (d : derived) this s :
  acyclic bound s = true →
  derived_ok bound d = true →
  bound - ctx_id (der_ctx d) < depth →
  ∃ s', connectedCallback (dispatchEvent depth)
          [Provide deco (der_ctx d) (der_key d); DerivedHooks k d] this s
          = Some (tt, s') ∧
    acyclic bound s' = true ∧
    fresh s' = fresh s + length (der_contexts d) ∧
    ready (cell_of s' k) = true ∧
    dispose (cell_of s' k) =
      dispose (cell_of s k) ++ stops this (fresh s) (length (der_contexts d)).
Proof.
  intros Hac Hok Hd. pose proof (derived_ok_elim _ _ Hok) as Hcs.
  unfold connectedCallback, connectedHook.
  cbv [bind addEventListener modify ret].
  set (s0 := addListener _ _ _ s).
  assert (Hac0 : acyclic bound s0 = true) by by apply acyclic_addListener.
  destruct (watchAll_spec bound depth k d this (der_contexts d) 0 s0)
    as (s1 & -> & Hac1 & Hf1 & Hr1 & Hd1); [done..|].
  unfold sync. cbv [bind gets].
  set (s2 := set_ready k true s1).
  destruct (provider_set_frame bound depth (der_ctx d) this
    (derivation d (values (cell_of s2 k))) s2) as (s3 & -> & Hl3 & Hf3 & Hk3);
    [done|done|].
  exists s3. split; [done|]. destruct (Hk3 k) as [Hr3 Hd3].
  split; [|split; [|split]].
  - rewrite <- Hac1. by apply acyclic_same_listeners.
  - rewrite Hf3. simpl. rewrite Hf1. unfold s0. by frame_simpl.
  - rewrite Hr3. unfold s2, set_ready, cell_of; simpl.
    by rewrite lookup_insert_eq.
  - rewrite Hd3. unfold s2, set_ready, cell_of at 1; simpl.
    rewrite lookup_insert_eq; simpl. rewrite Hd1. unfold s0, cell_of.
    by frame_simpl.
Qed.

Lemma derived_disconnected bound (disp : node → event → M unit)
    deco k (d : derived) this s :
  acyclic bound s = true →
  ∃ s', disconnectedCallback disp
          [Provide deco (der_ctx d) (der_key d); DerivedHooks k d] this s
          = Some (tt, s') ∧
    acyclic bound s' = true ∧
    fresh s' = fresh s ∧
    ready (cell_of s' k) = false ∧
    dispose (cell_of s' k) = dispose (cell_of s k) ∧
    ∀ f, In f (dispose (cell_of s k)) →
      registered (stop_el f) ProviderUpdateTYPE (stop_ref f) s' = false.
Proof.
  intros Hac. unfold disconnectedCallback, disconnectedHook.
  cbv [bind removeEventListener modify ret gets].
  set (s1 := set_ready k false _).
  assert (Hd1 : dispose (cell_of s1 k) = dispose (cell_of s k)).
  { unfold s1, set_ready, cell_of; simpl. by rewrite lookup_insert_eq. }
  assert (Hac1 : acyclic bound s1 = true).
  { unfold s1.
    rewrite (acyclic_same_listeners bound
      (removeListener this ConsumerConnectTYPE (FOnConsumerConnect deco) s));
      [|done].
    by apply acyclic_removeListener. }
  destruct (callStops_spec bound (dispose (cell_of s1 k)) s1)
    as (s' & -> & Hce & Hf & Hac' & Hsh & Hgone).
  exists s'. split; [done|]. split; [auto|]. split; [by rewrite Hf|].
  unfold cell_of at 1 2. rewrite Hce. fold (cell_of s1 k).
  split; [|split; [done|]].
  - unfold s1, set_ready, cell_of; simpl. by rewrite lookup_insert_eq.
  - intros f Hin. apply Hgone. by rewrite Hd1.
Qed.

(** C10: the closure variables of [provideDerivedContext] belong to the
    decorated type, not to an element.  Attaching an element of the type
    pushes one unsubscribe function per upstream context; detaching it
    runs them and resets [ready], and leaves the [dispose] list as it is;
    attaching an element of the type again, the same one or another,
    appends its subscriptions behind the stale entries, whose listeners are
    gone. *)
Theorem derived_closure_shared_per_type (bound depth deco k : nat) (d : derived)
    (this1 this2 : node) (s : state) :
  acyclic bound s = true →
  derived_ok bound d = true →
  bound - ctx_id (der_ctx d) < depth →
  let proto := [Provide deco (der_ctx d) (der_key d); DerivedHooks k d] in
  let n := length (der_contexts d) in
  ∃ s1 s2 s3,
    connectedCallback (dispatchEvent depth) proto this1 s = Some (tt, s1) ∧
    disconnectedCallback (dispatchEvent depth) proto this1 s1 = Some (tt, s2) ∧
    connectedCallback (dispatchEvent depth) proto this2 s2 = Some (tt, s3) ∧
    ready (cell_of s1 k) = true ∧
    dispose (cell_of s1 k) = dispose (cell_of s k) ++ stops this1 (fresh s) n ∧
    ready (cell_of s2 k) = false ∧
    dispose (cell_of s2 k) = dispose (cell_of s1 k) ∧
    (∀ f, In f (stops this1 (fresh s) n) →
       registered (stop_el f) ProviderUpdateTYPE (stop_ref f) s2 = false) ∧
    ready (cell_of s3 k) = true ∧
    dispose (cell_of s3 k) =
      dispose (cell_of s k) ++ stops this1 (fresh s) n
        ++ stops this2 (fresh s + n) n.
Proof.
  intros Hac Hok Hd proto n.
  destruct (derived_connected bound depth deco k d this1 s)
    as (s1 & H1 & Hac1 & Hf1 & Hr1 & Hd1); [done..|].
  destruct (derived_disconnected bound (dispatchEvent depth) deco k d this1 s1)
    as (s2 & H2 & Hac2 & Hf2 & Hr2 & Hd2 & Hgone); [done|].
  destruct (derived_connected bound depth deco k d this2 s2)
    as (s3 & H3 & Hac3 & Hf3 & Hr3 & Hd3); [done..|].
  exists s1, s2, s3. repeat (split; [done|]).
  split.
  - intros f Hin. apply Hgone. rewrite Hd1. apply in_or_app. by right.
  - split; [done|]. rewrite Hd3, Hd2, Hd1, Hf2, Hf1. by rewrite <- app_assoc.
Qed.

Lemma cell_of_set_slot k i v s :
  cell_of (set_slot k i v s) k =
  Cell (ready (cell_of s k)) (array_set i v (values (cell_of s k)))
    (dispose (cell_of s k)).
Proof. unfold set_slot, cell_of at 1; simpl. by rewrite lookup_insert_eq. Qed.


(** ** Delivery of an update to the paired consumers *)

Lemma invoke_passive d l this c v s :
  passive l = true →
  invoke d l this (ContextProviderUpdateEvent c v) s = Some (false, deliver c v s l).
Proof.
  destruct l as [deco c' p|u|k c' pr upd co odp|k c' [h|? ? ? ?]]; simpl;
    intros Hp; try done.
  - unfold onProviderUpdate; simpl. by case_bool_decide.
  - cbv [bind ret removeEventListener modify onDisconnectFromProvider
         validate_disconnect].
    by rewrite removeListener_odp.
  - unfold handleUpdate; simpl. by case_bool_decide.
Qed.

Lemma deliver_listeners c v s l : listeners (deliver c v s l) = listeners s.
Proof.
  destruct l as [| u | |k c' [h|? ? ? ?]]; simpl; try done; by case_bool_decide.
Qed.

Lemma deliver_contextMap c v s l : contextMap (deliver c v s l) = contextMap s.
Proof.
  destruct l as [| u | |k c' [h|? ? ? ?]]; simpl; try done; by case_bool_decide.
Qed.

Lemma registered_same_listeners el ty r s s' :
  listeners s' = listeners s → registered el ty r s' = registered el ty r s.
Proof. unfold registered, listeners_of. by intros ->. Qed.

Lemma invokeAll_passive d this c v ls : ∀ s,
  forallb passive ls = true →
  (∀ l, In l ls → registered this ProviderUpdateTYPE (ref_of l) s = true) →
  invokeAll d this (ContextProviderUpdateEvent c v) ls s =
  Some (false, fold_left (deliver c v) ls s).
Proof.
  induction ls as [|l ls IH]; intros s Hp Hreg; [done|].
  apply andb_prop in Hp as [Hl Hls]. simpl.
  cbv [bind gets]. simpl. rewrite (Hreg l) by auto using in_eq.
  rewrite invoke_passive by done. apply IH; [done|].
  intros l' Hin.
  rewrite (registered_same_listeners _ _ _ s) by apply deliver_listeners.
  auto using in_cons.
Qed.

Lemma fold_deliver_listeners c v ls : ∀ s,
  listeners (fold_left (deliver c v) ls s) = listeners s.
Proof.
  induction ls as [|l ls IH]; intros s; [done|]. simpl.
  by rewrite IH, deliver_listeners.
Qed.

Lemma fold_deliver_contextMap c v ls : ∀ s,
  contextMap (fold_left (deliver c v) ls s) = contextMap s.
Proof.
  induction ls as [|l ls IH]; intros s; [done|]. simpl.
  by rewrite IH, deliver_contextMap.
Qed.

Lemma fold_deliver_log c v ls : ∀ s,
  log (fold_left (deliver c v) ls s) =
  log s ++ List.map (λ h, Handled h v) (watchers c ls).
Proof.
  induction ls as [|l ls IH]; intros s; simpl; [by rewrite app_nil_r|].
  rewrite IH.
  destruct l as [| u | |k c' [h|? ? ? ?]]; simpl; try done.
  - by case_bool_decide.
  - case_bool_decide as Hc; subst.
    + rewrite bool_decide_eq_true_2 by done. simpl. by rewrite <- app_assoc.
    + rewrite bool_decide_eq_false_2 by congruence. done.
Qed.

Lemma fold_deliver_untouched c v key ls : ∀ s,
  existsb (targets c key) ls = false →
  props (fold_left (deliver c v) ls s) !! key = props s !! key.
Proof.
  induction ls as [|l ls IH]; intros s; [done|]. simpl.
  intros [Hl Hls]%orb_false_elim. rewrite IH by done.
  destruct l as [| u | |k c' [h|? ? ? ?]]; simpl; try done.
  - simpl in Hl. apply bool_decide_eq_false in Hl.
    destruct (bool_decide (c = ctx_id (upd_ctx u))) eqn:Hc; [|done]. simpl.
    apply bool_decide_eq_true in Hc.
    rewrite lookup_insert_ne; [done|]. intros Hk. apply Hl. by split.
  - by destruct (bool_decide (c = ctx_id c')).
Qed.

Lemma fold_deliver_written c v u ls : ∀ s,
  ctx_id (upd_ctx u) = c →
  (∀ u', In (OnProviderUpdate u') ls → ctx_id (upd_ctx u') = c →
         (upd_consumer u', upd_prop u') = (upd_consumer u, upd_prop u) → u' = u) →
  In (OnProviderUpdate u) ls ∨
    props s !! (upd_consumer u, upd_prop u) = Some (apply_transform (upd_opts u) v) →
  props (fold_left (deliver c v) ls s) !! (upd_consumer u, upd_prop u) =
    Some (apply_transform (upd_opts u) v).
Proof.
  induction ls as [|l ls IH]; intros s Hc Huniq Hin; simpl.
  - by destruct Hin as [[]|].
  - apply IH; [done|auto using in_cons|].
    destruct l as [| u' | |k c' [h|? ? ? ?]]; simpl.
    + destruct Hin as [[|]|]; [done|auto..].
    + case_bool_decide as Hc'.
      * destruct (decide ((upd_consumer u', upd_prop u')
                          = (upd_consumer u, upd_prop u))) as [Hk|Hk].
        -- rewrite (Huniq u') by (auto using in_eq).
           right. simpl. apply lookup_insert_eq.
        -- destruct Hin as [[[= ->]|Hin]|Hin]; [done|by left|right].
           simpl. by rewrite lookup_insert_ne.
      * destruct Hin as [[[= ->]|Hin]|Hin]; [by subst|by left|by right].
    + destruct Hin as [[|]|]; [done|auto..].
    + case_bool_decide; destruct Hin as [[|]|]; try done; auto.
    + destruct Hin as [[|]|]; [done|auto..].
Qed.

(** A [set] with an unequal value when no update listener of the element
    runs [sync]. *)
Lemma provider_set_passive (depth : nat) (c : context) (this : node)
    (v : value) (s : state) :
  forallb passive (snapshot this ProviderUpdateTYPE s) = true →
  notEqual v (match contextMap s !! (ctx_id c, this) with
              | Some w => w
              | None => defaultValue c
              end) = true →
  let paired := snapshot this ProviderUpdateTYPE s in
  ∃ s', provider_set (dispatchEvent (S depth)) c this v s = Some (tt, s') ∧
    contextMap s' = <[(ctx_id c, this) := v]> (contextMap s) ∧
    listeners s' = listeners s ∧
    log s' = log s ++
      Dispatched this (ContextProviderUpdateEvent (ctx_id c) v)
      :: List.map (λ h, Handled h v) (watchers (ctx_id c) paired) ∧
    (∀ u, In (OnProviderUpdate u) paired →
          ctx_id (upd_ctx u) = ctx_id c →
          (∀ u', In (OnProviderUpdate u') paired →
                 ctx_id (upd_ctx u') = ctx_id c →
                 (upd_consumer u', upd_prop u') = (upd_consumer u, upd_prop u) →
                 u' = u) →
          props s' !! (upd_consumer u, upd_prop u) =
            Some (apply_transform (upd_opts u) v)) ∧
    (∀ key, existsb (targets (ctx_id c) key) paired = false →
            props s' !! key = props s !! key).
Proof.
  intros Hp Hne paired.
  unfold provider_set, provider_get, stored. cbv [bind gets]. rewrite Hne.
  cbv [modify].
  change (dispatchEvent (S depth) this
            (ContextProviderUpdateEvent (ctx_id c) v))
    with (dispatchBody (dispatchEvent depth) this
            (ContextProviderUpdateEvent (ctx_id c) v)).
  unfold dispatchBody. cbv [bind logEffect modify gets propagate eventPath bubbles].
  set (s0 := with_log _ (with_contextMap _ s)).
  change (snapshot this
            (type_of (ContextProviderUpdateEvent (ctx_id c) v)) s0) with paired.
  rewrite invokeAll_passive; [|done|].
  2:{ intros l Hl. apply (snapshot_registered this ProviderUpdateTYPE l s0 Hl). }
  eexists. split; [reflexivity|].
  split; [by rewrite fold_deliver_contextMap|].
  split; [by rewrite fold_deliver_listeners|].
  split; [rewrite fold_deliver_log; unfold s0; simpl; by rewrite <- app_assoc|].
  split.
  - intros u Hin Hc Huniq. apply fold_deliver_written; auto.
  - intros key Hkey. by rewrite fold_deliver_untouched.
Qed.

(** X1: a [set] with an unequal value on a provider whose update listeners
    are consumer callbacks and watch handlers stores the value and runs
    every listener of its context once, in registration order: each watch
    handler is called with the value, each paired consumer property ends as
    the consumer's transform of the value, and properties that no callback
    of this context assigns are left alone. *)
Theorem set_reaches_every_consumer (depth : nat) (c : context) (this : node)
    (v : value) (s : state) :
  forallb passive (snapshot this ProviderUpdateTYPE s) = true →
  notEqual v (match contextMap s !! (ctx_id c, this) with
              | Some w => w
              | None => defaultValue c
              end) = true →
  let paired := snapshot this ProviderUpdateTYPE s in
  ∃ s', provider_set (dispatchEvent (S depth)) c this v s = Some (tt, s') ∧
    contextMap s' = <[(ctx_id c, this) := v]> (contextMap s) ∧
    listeners s' = listeners s ∧
    log s' = log s ++
      Dispatched this (ContextProviderUpdateEvent (ctx_id c) v)
      :: List.map (λ h, Handled h v) (watchers (ctx_id c) paired) ∧
    (∀ u, In (OnProviderUpdate u) paired →
          ctx_id (upd_ctx u) = ctx_id c →
          (∀ u', In (OnProviderUpdate u') paired →
                 ctx_id (upd_ctx u') = ctx_id c →
                 (upd_consumer u', upd_prop u') = (upd_consumer u, upd_prop u) →
                 u' = u) →
          props s' !! (upd_consumer u, upd_prop u) =
            Some (apply_transform (upd_opts u) v)) ∧
    (∀ key, existsb (targets (ctx_id c) key) paired = false →
            props s' !! key = props s !! key).
Proof. apply provider_set_passive. Qed.

(** ** The consumer detaches *)

Lemma filter_filter_implied {A} (f g : A → bool) (l : list A) :
  (∀ x, f x = true → g x = true) →
  List.filter f (List.filter g l) = List.filter f l.
Proof.
  intros Himp. induction l as [|a l IH]; simpl; [done|].
  destruct (g a) eqn:Hg; simpl.
  - rewrite IH. done.
  - destruct (f a) eqn:Hf; [|done]. apply Himp in Hf. congruence.
Qed.

(** Removing a listener for one event type leaves the listeners for the
    other types as they are. *)
Lemma snapshot_removeListener_other n ty el ty' r s :
  ty ≠ ty' →
  snapshot n ty (removeListener el ty' r s) = snapshot n ty s.
Proof.
  intros Hty. unfold snapshot, removeListener, listeners_of; simpl.
  rewrite lookup_alter. case_decide; [subst|done].
  destruct (listeners s !! n) as [l|]; simpl; [|done].
  f_equal. apply filter_filter_implied. intros [ty0 l0]; simpl.
  intros ->%bool_decide_eq_true. unfold same_listener; simpl.
  by rewrite bool_decide_eq_false_2.
Qed.

Lemma registered_snapshot el ty r s :
  registered el ty r s =
  existsb (λ l, bool_decide (ref_of l = r)) (snapshot el ty s).
Proof.
  unfold registered, snapshot.
  induction (listeners_of s el) as [|[ty0 l0] ls IH]; simpl; [done|].
  unfold same_listener at 1; simpl. case_bool_decide; simpl.
  - by rewrite IH.
  - done.
Qed.

(** What a listener does with a disconnect event, precisely. *)
Lemma invoke_disconnect_cases d l this c s :
  ∃ s', invoke d l this (ContextConsumerDisconnectEvent c) s = Some (false, s') ∧
    (s' = s ∨
     ∃ k c' p upd co odp,
       l = DisconnectListener k c' p upd co odp ∧ ctx_id c' = c ∧
       s' = removeListener p ProviderUpdateTYPE upd s) ∧
    (∀ k c' p upd co odp,
       l = DisconnectListener k c' p upd co odp → ctx_id c' = c →
       s' = removeListener p ProviderUpdateTYPE upd s).
Proof.
  destruct l as [deco c' p|u|k c' p upd co odp|k c' h]; simpl;
    try (exists s; split; [done|]; split; [by left|done]).
  cbv [bind ret removeEventListener modify onDisconnectFromProvider
       validate_disconnect].
  case_bool_decide as Hc; rewrite removeListener_odp.
  - eexists. split; [done|]. split.
    + right. by exists k, c', p, upd, co, odp.
    + by intros ?????? [= <- <- <- <- <- <-] _.
  - exists s. split; [done|]. split; [by left|].
    intros ?????? [= <- <- <- <- <- <-] Hc'. congruence.
Qed.

Lemma unpairing_refl s : unpairing s s.
Proof. repeat split; auto using listeners_shrink_refl. Qed.

Lemma unpairing_trans s1 s2 s3 :
  unpairing s1 s2 → unpairing s2 s3 → unpairing s1 s3.
Proof.
  intros (? & ? & ? & ? & ? & Hs & ?) (? & ? & ? & ? & ? & Hs' & ?).
  repeat split; try congruence.
  - intros n ty Hty. rewrite Hs' by done. auto.
  - eauto using listeners_shrink_trans.
Qed.

Lemma unpairing_removeListener p upd s :
  unpairing s (removeListener p ProviderUpdateTYPE upd s).
Proof.
  repeat split; try done.
  - intros n ty Hty. by apply snapshot_removeListener_other.
  - apply removeListener_shrink.
Qed.

Lemma invoke_disconnect_unpairing d l this c s s' b :
  invoke d l this (ContextConsumerDisconnectEvent c) s = Some (b, s') →
  unpairing s s'.
Proof.
  destruct (invoke_disconnect_cases d l this c s) as (s1 & -> & Hcases & _).
  intros [= _ <-].
  destruct Hcases as [->|(? & ? & ? & ? & ? & ? & _ & _ & ->)].
  - apply unpairing_refl.
  - apply unpairing_removeListener.
Qed.

Lemma invokeAll_disconnect_unpairing d this c ls : ∀ s,
  ∃ s', invokeAll d this (ContextConsumerDisconnectEvent c) ls s = Some (false, s') ∧
        unpairing s s'.
Proof.
  induction ls as [|l ls IH]; intros s; simpl.
  - exists s. split; [done|]. apply unpairing_refl.
  - cbv [bind gets]. case_match; [|apply IH].
    destruct (invoke_disconnect_cases d l this c s) as (s1 & H1 & _).
    pose proof (invoke_disconnect_unpairing _ _ _ _ _ _ _ H1) as Hu1.
    rewrite H1. destruct (IH s1) as (s2 & -> & Hu2).
    exists s2. split; [done|]. eauto using unpairing_trans.
Qed.

Lemma invokeAll_disconnect_unpairs d this c k c' p upd co odp ls : ∀ s,
  In (DisconnectListener k c' p upd co odp) ls →
  ctx_id c' = c →
  (∀ l, In l ls → registered this ConsumerDisconnectTYPE (ref_of l) s = true) →
  ∃ s', invokeAll d this (ContextConsumerDisconnectEvent c) ls s = Some (false, s') ∧
        unpairing s s' ∧
        registered p ProviderUpdateTYPE upd s' = false.
Proof.
  induction ls as [|l ls IH]; intros s Hin Hc Hreg; [done|].
  simpl. cbv [bind gets]. simpl. rewrite (Hreg l) by auto using in_eq.
  destruct (invoke_disconnect_cases d l this c s) as (s1 & H1 & _ & Hmine).
  pose proof (invoke_disconnect_unpairing _ _ _ _ _ _ _ H1) as Hu1.
  rewrite H1.
  destruct Hin as [->|Hin].
  - specialize (Hmine _ _ _ _ _ _ eq_refl Hc). subst s1.
    destruct (invokeAll_disconnect_unpairing d this c ls
      (removeListener p ProviderUpdateTYPE upd s)) as (s2 & -> & Hu2).
    exists s2. split; [done|]. split; [eauto using unpairing_trans|].
    apply not_true_is_false. intros Ht.
    destruct Hu2 as (_ & _ & _ & _ & _ & _ & Hsh). apply Hsh in Ht.
    by rewrite registered_removeListener_same in Ht.
  - destruct (IH s1) as (s2 & -> & Hu2 & Hgone); [done|done| |].
    { intros l' Hl'. rewrite registered_snapshot.
      destruct Hu1 as (_ & _ & _ & _ & _ & Hs & _).
      rewrite Hs by done. rewrite <- registered_snapshot. auto using in_cons. }
    exists s2. split; [done|]. split; [eauto using unpairing_trans|done].
Qed.

(** X2: when a paired consumer detaches, its [disconnectedCallback]
    removes the consumer's update callback from the provider it was paired
    with, so that later updates of that provider no longer reach it; the
    stores and the consumer's property stay as they are. *)
Theorem consumer_detach_unpairs (depth : nat) (c : context) (p : prop)
    (o : consumeOptions) (this : node)
    (k : nat) (c' : context) (provider : node) (upd : fnRef) (co odp : nat)
    (s : state) :
  In (DisconnectListener k c' provider upd co odp)
     (snapshot this ConsumerDisconnectTYPE s) →
  ctx_id c' = ctx_id c →
  ∃ s', disconnectedHook (dispatchEvent (S depth)) (Consume c p o) this s
          = Some (tt, s') ∧
    registered provider ProviderUpdateTYPE upd s' = false ∧
    contextMap s' = contextMap s ∧
    props s' = props s.
Proof.
  intros Hin Hc. unfold disconnectedHook.
  change (dispatchEvent (S depth) this
            (ContextConsumerDisconnectEvent (ctx_id c)))
    with (dispatchBody (dispatchEvent depth) this
            (ContextConsumerDisconnectEvent (ctx_id c))).
  unfold dispatchBody.
  cbv [bind logEffect modify gets propagate eventPath bubbles type_of].
  set (s0 := with_log _ s).
  destruct (invokeAll_disconnect_unpairs (dispatchEvent depth) this (ctx_id c)
              k c' provider upd co odp
              (snapshot this ConsumerDisconnectTYPE s0) s0)
    as (s' & Hrun & (Hcm & Hpr & _) & Hgone); [done|done| |].
  { intros l. apply snapshot_registered. }
  cbv [bind gets]. rewrite Hrun. by exists s'.
Qed.

(** X3: the listener a consumer registers on itself for its disconnect
    event is never removed: the function [off] (lines 215-219) names
    [onDisconnectFromProvider], which is registered nowhere.  After the
    consumer's [disconnectedCallback] every element has the disconnect and
    connect listeners it had, so the listeners of earlier attach cycles run
    again at every later detach. *)
Theorem disconnect_listeners_are_kept (depth : nat) (c : context) (p : prop)
    (o : consumeOptions) (this : node) (s : state) :
  ∃ s', disconnectedHook (dispatchEvent (S depth)) (Consume c p o) this s
          = Some (tt, s') ∧
    (∀ n, snapshot n ConsumerDisconnectTYPE s' = snapshot n ConsumerDisconnectTYPE s) ∧
    (∀ n, snapshot n ConsumerConnectTYPE s' = snapshot n ConsumerConnectTYPE s).
Proof.
  unfold disconnectedHook.
  change (dispatchEvent (S depth) this
            (ContextConsumerDisconnectEvent (ctx_id c)))
    with (dispatchBody (dispatchEvent depth) this
            (ContextConsumerDisconnectEvent (ctx_id c))).
  unfold dispatchBody.
  cbv [bind logEffect modify gets propagate eventPath bubbles type_of].
  set (s0 := with_log _ s).
  destruct (invokeAll_disconnect_unpairing (dispatchEvent depth) this (ctx_id c)
              (snapshot this ConsumerDisconnectTYPE s0) s0)
    as (s' & Hrun & (_ & _ & _ & _ & _ & Hs & _)).
  cbv [bind gets]. rewrite Hrun. exists s'. split; [done|].
  split; intros n; by rewrite Hs.
Qed.

(** ** The consumer attaches *)

Lemma invokeAll_connect_claimant d this c dt ls s :
  existsb (claims c) ls = true →
  (∀ l, In l ls → registered this ConsumerConnectTYPE (ref_of l) s = true) →
  ∃ deco c' q, In (OnConsumerConnect deco c' q) ls ∧ ctx_id c' = c ∧
    invokeAll d this (ContextConsumerConnectEvent c dt) ls s =
    onConsumerConnect c' this (ContextConsumerConnectEvent c dt) s.
Proof.
  induction ls as [|l ls IH]; simpl; [done|].
  intros Hex Hreg. cbv [bind gets]. simpl.
  rewrite (Hreg l) by auto.
  destruct (claims c l) eqn:Hl.
  - destruct l as [deco c' p| | |]; simpl in Hl; try done.
    apply bool_decide_eq_true in Hl as <-. exists deco, c', p.
    split; [by left|]. split; [done|]. simpl.
    destruct (onConsumerConnect_claim c' this dt s) as (s' & -> & _). done.
  - rewrite invoke_connect_unclaimed by done. simpl in Hex.
    destruct IH as (deco & c' & q & Hin & Hc & Heq); auto.
    exists deco, c', q. auto.
Qed.

Lemma propagate_connect_claimant d c dt path s p :
  nearestProvider c path s = Some p →
  ∃ deco c' q s',
    In (OnConsumerConnect deco c' q) (snapshot p ConsumerConnectTYPE s) ∧
    ctx_id c' = c ∧
    onConsumerConnect c' p (ContextConsumerConnectEvent c dt) s = Some (true, s') ∧
    propagate d path (ContextConsumerConnectEvent c dt) s = Some (tt, s').
Proof.
  unfold nearestProvider.
  induction path as [|el up IH]; simpl; [done|].
  destruct (provides c s el) eqn:Hp.
  - intros [= <-].
    destruct (invokeAll_connect_claimant d el c dt
      (snapshot el ConsumerConnectTYPE s) s Hp) as (deco & c' & q & Hin & <- & Heq).
    { intros l. apply snapshot_registered. }
    destruct (onConsumerConnect_claim c' el dt s) as (s' & Hs' & _).
    exists deco, c', q, s'. split; [done|]. split; [done|]. split; [done|].
    cbv [bind gets]. simpl. by rewrite Heq, Hs'.
  - intros Hfind. cbv [bind gets]. simpl.
    rewrite invokeAll_connect_none by done. by apply IH.
Qed.

(** What a claim does to the consumer named in the event. *)
Lemma onConsumerConnect_effect (c' : context) (this : node) (dt : detail) (s : state) :
  ctx_id (upd_ctx (det_update dt)) = ctx_id c' →
  let u := det_update dt in
  ∃ s', onConsumerConnect c' this (ContextConsumerConnectEvent (ctx_id c') dt) s
          = Some (true, s') ∧
    props s' !! (upd_consumer u, upd_prop u) =
      Some (apply_transform (upd_opts u)
              (match contextMap s !! (ctx_id c', this) with
               | Some v => v
               | None => defaultValue c'
               end)) ∧
    (∀ key, key ≠ (upd_consumer u, upd_prop u) → props s' !! key = props s !! key) ∧
    registered this ProviderUpdateTYPE (FOnProviderUpdate (upd_k u)) s' = true ∧
    contextMap s' = contextMap s ∧
    parentNode s' = parentNode s ∧
    log s' = log s.
Proof.
  intros Hc u. unfold onConsumerConnect; simpl.
  rewrite bool_decide_eq_true_2 by done.
  cbv [bind ret gets modify freshId detail_onConnectToProvider retry_stop
       addEventListener provider_get onProviderUpdate validate_update stored].
  rewrite bool_decide_eq_true_2 by done.
  eexists. split; [reflexivity|]. frame_simpl.
  split; [by rewrite lookup_insert_eq|].
  split; [intros key Hkey; by rewrite lookup_insert_ne|].
  split; [|done].
  apply registered_addListener_mono.
  pose proof (registered_addListener this ProviderUpdateTYPE
    (OnProviderUpdate (det_update dt)) s) as H.
  revert H. unfold registered, listeners_of. simpl.
  by autorewrite with frame.
Qed.

(** X4: a consumer attached below a provider of its context is paired
    during [connectedCallback] with the nearest one: on return its bound
    property holds the transform of the value that provider has (stored, or
    the default), its update callback is registered on that provider, and
    no store has changed. *)
Theorem consumer_attach_pairs (depth : nat) (c : context) (p : prop)
    (o : consumeOptions) (this provider : node) (s : state) :
  nearestProvider (ctx_id c) (pathFrom s this) s = Some provider →
  ∃ s' deco c' q,
    connectedHook (dispatchEvent (S depth)) (Consume c p o) this s = Some (tt, s') ∧
    In (OnConsumerConnect deco c' q) (snapshot provider ConsumerConnectTYPE s) ∧
    ctx_id c' = ctx_id c ∧
    props s' !! (this, p) =
      Some (apply_transform o
              (match contextMap s !! (ctx_id c, provider) with
               | Some v => v
               | None => defaultValue c'
               end)) ∧
    registered provider ProviderUpdateTYPE (FOnProviderUpdate (S (fresh s))) s' = true ∧
    contextMap s' = contextMap s.
Proof.
  intros Hnear. unfold connectedHook, consumer_onConnectToProvider.
  cbv [bind ret gets modify freshId fireEventAndRetry retry_start]. simpl.
  rewrite lookup_insert_eq.
  cbv [bind dis_el dis_event].
  set (dt := Detail this (fresh s) (UpdateClosure (S (fresh s)) c this p o)).
  set (sa := with_retries _ _).
  change (dispatchBody (dispatchEvent depth) this
            (ContextConsumerConnectEvent (ctx_id c) dt) sa)
    with (dispatchEvent (S depth) this
            (ContextConsumerConnectEvent (ctx_id c) dt) sa).
  change (dispatchEvent (S depth) this
            (ContextConsumerConnectEvent (ctx_id c) dt) sa)
    with (dispatchBody (dispatchEvent depth) this
            (ContextConsumerConnectEvent (ctx_id c) dt) sa).
  unfold dispatchBody. cbv [bind logEffect modify gets].
  set (s0 := with_log _ sa).
  assert (Hnear0 : nearestProvider (ctx_id c)
            (eventPath this (ContextConsumerConnectEvent (ctx_id c) dt) s0) s0
          = Some provider) by exact Hnear.
  destruct (propagate_connect_claimant (dispatchEvent depth) (ctx_id c) dt _ s0
              provider Hnear0) as (deco & c' & q & s1 & Hin & Hc & Hclaim & ->).
  destruct (onConsumerConnect_effect c' provider dt s0)
    as (s1' & Hclaim' & Hprop & _ & Hreg & Hcm & _); [by rewrite Hc|].
  rewrite Hc in Hclaim'. rewrite Hclaim in Hclaim'. injection Hclaim' as <-.
  cbv [retry_schedule modify].
  eexists _, deco, c', q. split; [reflexivity|]. split; [exact Hin|].
  split; [done|]. simpl. split; [|split; [|done]].
  - simpl in Hprop. rewrite Hprop, Hc. done.
  - revert Hreg. unfold registered, listeners_of. by simpl.
Qed.

(** X5: a consumer attached where no element on the way up provides its
    context is left unpaired by [connectedCallback]: the connect event is
    dispatched once and nothing else happens, no listener is registered
    anywhere and no property or store changes. *)
Theorem consumer_attach_without_provider (depth : nat) (c : context) (p : prop)
    (o : consumeOptions) (this : node) (s : state) :
  nearestProvider (ctx_id c) (pathFrom s this) s = None →
  ∃ s' dt,
    connectedHook (dispatchEvent (S depth)) (Consume c p o) this s = Some (tt, s') ∧
    listeners s' = listeners s ∧
    props s' = props s ∧
    contextMap s' = contextMap s ∧
    log s' = log s ++ [Dispatched this (ContextConsumerConnectEvent (ctx_id c) dt)].
Proof.
  intros Hnear. unfold connectedHook, consumer_onConnectToProvider.
  cbv [bind ret gets modify freshId fireEventAndRetry retry_start]. simpl.
  rewrite lookup_insert_eq.
  cbv [bind dis_el dis_event].
  set (dt := Detail this (fresh s) (UpdateClosure (S (fresh s)) c this p o)).
  set (sa := with_retries _ _).
  change (dispatchBody (dispatchEvent depth) this
            (ContextConsumerConnectEvent (ctx_id c) dt) sa)
    with (dispatchEvent (S depth) this
            (ContextConsumerConnectEvent (ctx_id c) dt) sa).
  change (dispatchEvent (S depth) this
            (ContextConsumerConnectEvent (ctx_id c) dt) sa)
    with (dispatchBody (dispatchEvent depth) this
            (ContextConsumerConnectEvent (ctx_id c) dt) sa).
  unfold dispatchBody. cbv [bind logEffect modify gets].
  set (s0 := with_log _ sa).
  pose proof (propagate_connect (dispatchEvent depth) (ctx_id c) dt
                (eventPath this (ContextConsumerConnectEvent (ctx_id c) dt) s0) s0)
    as Hprop.
  assert (Hnear0 : nearestProvider (ctx_id c)
            (eventPath this (ContextConsumerConnectEvent (ctx_id c) dt) s0) s0
          = None) by exact Hnear.
  rewrite Hnear0 in Hprop. rewrite Hprop.
  cbv [retry_schedule modify].
  eexists _, dt. split; [reflexivity|]. done.
Qed.

(** ** The provider detaches and comes back *)

Lemma onConsumerConnect_contextMap c' this e s b s' :
  onConsumerConnect c' this e s = Some (b, s') → contextMap s' = contextMap s.
Proof.
  unfold onConsumerConnect. destruct (validate_connect c' e) as [dt|].
  - cbv [bind ret gets modify freshId detail_onConnectToProvider retry_stop
         addEventListener provider_get onProviderUpdate].
    destruct (validate_update _ _); intros [= <- <-]; by frame_simpl.
  - by intros [= <- <-].
Qed.

Lemma dispatch_connect_contextMap depth el c dt s :
  ∃ s', dispatchEvent (S depth) el (ContextConsumerConnectEvent c dt) s
          = Some (tt, s') ∧
        contextMap s' = contextMap s.
Proof.
  change (dispatchEvent (S depth) el (ContextConsumerConnectEvent c dt) s)
    with (dispatchBody (dispatchEvent depth) el
            (ContextConsumerConnectEvent c dt) s).
  unfold dispatchBody. cbv [bind logEffect modify gets].
  set (s0 := with_log _ s). set (path := eventPath _ _ _).
  pose proof (propagate_connect (dispatchEvent depth) c dt path s0) as H.
  destruct (nearestProvider c path s0) as [p|].
  - destruct H as (c' & s' & <- & Hclaim & ->). exists s'. split; [done|].
    by rewrite (onConsumerConnect_contextMap _ _ _ _ _ _ Hclaim).
  - rewrite H. by exists s0.
Qed.

(** Attaching an element whose type has no derived context writes no
    store. *)
Lemma connectedCallback_contextMap depth proto this : ∀ s,
  forallb plain proto = true →
  ∃ s', connectedCallback (dispatchEvent (S depth)) proto this s = Some (tt, s') ∧
        contextMap s' = contextMap s.
Proof.
  induction proto as [|b orig IH]; intros s Hp.
  - by exists s.
  - apply andb_prop in Hp as [Hb Horig].
    change (connectedCallback (dispatchEvent (S depth)) (b :: orig) this s)
      with (bind (connectedHook (dispatchEvent (S depth)) b this)
              (λ _, connectedCallback (dispatchEvent (S depth)) orig this) s).
    assert (∃ s1, connectedHook (dispatchEvent (S depth)) b this s = Some (tt, s1) ∧
                  contextMap s1 = contextMap s) as (s1 & H1 & Hcm1).
    { destruct b as [deco c p|c p o|k d]; [| |done].
      - cbv [connectedHook addEventListener modify]. eexists. split; [done|].
        by frame_simpl.
      - unfold connectedHook, consumer_onConnectToProvider.
        cbv [bind ret gets modify freshId fireEventAndRetry retry_start]. simpl.
        rewrite lookup_insert_eq. cbv [bind dis_el dis_event].
        set (dt := Detail _ _ _). set (sa := with_retries _ _).
        change (dispatchBody (dispatchEvent depth) this
                  (ContextConsumerConnectEvent (ctx_id c) dt) sa)
          with (dispatchEvent (S depth) this
                  (ContextConsumerConnectEvent (ctx_id c) dt) sa).
        destruct (dispatch_connect_contextMap depth this (ctx_id c) dt sa)
          as (s1 & -> & Hcm).
        cbv [retry_schedule modify]. eexists. split; [reflexivity|].
        simpl. by rewrite Hcm. }
    rewrite (bind_Some _ _ _ _ _ H1).
    destruct (IH s1 Horig) as (s2 & H2 & Hcm2).
    exists s2. split; [done|]. congruence.
Qed.

(** X6: a provider that is detached and attached again has lost its value.
    For a type without derived contexts, [disconnectedCallback] deletes the
    element's store entry and [connectedCallback] does not restore it, so
    [get] returns the context default until [set] is called again. *)
Theorem provider_reattach_forgets (depth : nat) (proto : list binding)
    (deco : nat) (c : context) (p : prop) (this : node) (s : state) :
  In (Provide deco c p) proto →
  forallb plain proto = true →
  ∃ s1 s2,
    disconnectedCallback (dispatchEvent (S depth)) proto this s = Some (tt, s1) ∧
    connectedCallback (dispatchEvent (S depth)) proto this s1 = Some (tt, s2) ∧
    contextMap s2 !! (ctx_id c, this) = None ∧
    provider_get c this s2 = Some (defaultValue c, s2).
Proof.
  intros Hin Hplain.
  destruct (disconnectedCallback_detached depth proto this s)
    as (s1 & H1 & _ & _ & _ & _ & _).
  assert (Hnone : contextMap s1 !! (ctx_id c, this) = None).
  { clear Hplain. revert s s1 H1.
    induction proto as [|b orig IH]; intros s s1 H1; [done|].
    change (disconnectedCallback (dispatchEvent (S depth)) (b :: orig) this s)
      with (bind (disconnectedHook (dispatchEvent (S depth)) b this)
              (λ _, disconnectedCallback (dispatchEvent (S depth)) orig this) s)
      in H1.
    destruct (disconnectedHook_detached depth b this s) as (sb & Hb & Hdb).
    rewrite (bind_Some _ _ _ _ _ Hb) in H1.
    destruct Hin as [->|Hin]; [|by apply (IH Hin sb)].
    destruct (disconnectedCallback_detached depth orig this sb)
      as (s1' & H1' & _ & _ & _ & Hth & _).
    rewrite H1 in H1'. injection H1' as <-.
    destruct (Hth (ctx_id c)) as [->| ->]; [done|].
    revert Hb. cbv [disconnectedHook bind removeEventListener modify].
    intros [= <-]. simpl. apply lookup_delete_eq. }
  destruct (connectedCallback_contextMap depth proto this s1 Hplain)
    as (s2 & H2 & Hcm).
  exists s1, s2. split; [done|]. split; [done|].
  assert (Hnone2 : contextMap s2 !! (ctx_id c, this) = None) by by rewrite Hcm.
  split; [done|]. unfold provider_get, gets, stored. by rewrite Hnone2.
Qed.


(** ** Attaching an element of a derived type *)

Lemma array_set_at_end (pre rest : list value) (i : nat) (v : value) :
  length pre = i →
  array_set i v (pre ++ rest) = pre ++ v :: drop 1 rest.
Proof.
  intros <-. unfold array_set. rewrite length_app.
  destruct rest as [|r rest]; simpl.
  - rewrite bool_decide_eq_false_2 by lia.
    rewrite app_nil_r, Nat.add_0_r, Nat.sub_diag. done.
  - rewrite bool_decide_eq_true_2 by lia.
    rewrite insert_app_r_alt by lia. rewrite Nat.sub_diag. simpl.
    by rewrite drop_0.
Qed.

(** Subscribing a slot listener while the type is not ready only writes
    the slot. *)
Lemma watch_slot_not_ready (disp : node → event → M unit) (u : context)
    k (d : derived) i this s :
  ready (cell_of s k) = false →
  ∃ s', watch disp u this (HDerivedSlot k d i this) s
          = Some (StopFn this (FHandleUpdate (fresh s)), s') ∧
        contextMap s' = contextMap s ∧
        cell_of s' k =
          Cell false (array_set i (valueAt u this s) (values (cell_of s k)))
            (dispose (cell_of s k)).
Proof.
  intros Hr. unfold watch, provider_get, stored.
  cbv [bind gets modify callHandle]. rewrite cell_of_set_slot. simpl.
  rewrite Hr. cbv [ret freshId bind gets modify addEventListener].
  eexists. split; [reflexivity|]. frame_simpl. split; [done|].
  unfold cell_of at 1. frame_simpl.
  change (cell_of (set_slot k i (valueAt u this s) s) k = 
          Cell false (array_set i (valueAt u this s) (values (cell_of s k)))
            (dispose (cell_of s k))).
  by rewrite cell_of_set_slot, Hr.
Qed.

Lemma watchAll_not_ready (disp : node → event → M unit) k (d : derived) this :
  ∀ cs i s pre rest,
  ready (cell_of s k) = false →
  values (cell_of s k) = pre ++ rest →
  length pre = i →
  ∃ s', watchAll disp k d this i cs s = Some (tt, s') ∧
        contextMap s' = contextMap s ∧
        ready (cell_of s' k) = false ∧
        values (cell_of s' k) =
          pre ++ List.map (λ u, valueAt u this s) cs ++ drop (length cs) rest.
Proof.
  induction cs as [|u cs IH]; intros i s pre rest Hr Hv Hi.
  - exists s. split; [done|]. split; [done|]. split; [done|].
    simpl. by rewrite drop_0.
  - change (watchAll disp k d this i (u :: cs) s)
      with (bind (watch disp u this (HDerivedSlot k d i this))
              (λ stop, modify (push_dispose k stop) ;;
                       watchAll disp k d this (S i) cs) s).
    destruct (watch_slot_not_ready disp u k d i this s Hr) as (s1 & H1 & Hcm1 & Hcell1).
    rewrite (bind_Some _ _ _ _ _ H1). cbv [bind modify].
    set (s2 := push_dispose k _ s1).
    assert (Hcell2 : cell_of s2 k =
              Cell false (pre ++ valueAt u this s :: drop 1 rest)
                (dispose (cell_of s1 k) ++ [StopFn this (FHandleUpdate (fresh s))])).
    { unfold s2. rewrite cell_of_push_dispose, decide_True by done.
      rewrite Hcell1. simpl. by rewrite Hv, array_set_at_end. }
    destruct (IH (S i) s2 (pre ++ [valueAt u this s]) (drop 1 rest))
      as (s3 & -> & Hcm3 & Hr3 & Hv3).
    + by rewrite Hcell2.
    + rewrite Hcell2. simpl. by rewrite <- app_assoc.
    + rewrite length_app. simpl. lia.
    + exists s3. split; [done|]. split; [by rewrite Hcm3|]. split; [done|].
      rewrite Hv3. rewrite <- app_assoc. simpl. rewrite drop_drop.
      assert (Hmap : List.map (λ u', valueAt u' this s2) cs
                     = List.map (λ u', valueAt u' this s) cs).
      { apply map_ext. intros u'. unfold valueAt. unfold s2; simpl.
        by rewrite Hcm1. }
      by rewrite Hmap.
Qed.

(** X7: when an element of a derived type is attached while the type is
    not ready, slot [i] receives the value this very element has for
    upstream context [i] (its store entry, else the default), the slots
    beyond the upstream contexts are kept, and the derivation of these
    slots is passed to [set] of the derived context: stored when it differs
    from the element's derived value, dropped otherwise. *)
Theorem derived_attach_reads_own_element (bound depth k : nat) (d : derived)
    (this : node) (s : state) :
  ready (cell_of s k) = false →
  acyclic bound s = true →
  derived_ok bound d = true →
  bound - ctx_id (der_ctx d) < depth →
  let slots := List.map (λ u, valueAt u this s) (der_contexts d)
               ++ drop (length (der_contexts d)) (values (cell_of s k)) in
  let derivedValue := derivation d slots in
  ∃ s', connectedHook (dispatchEvent depth) (DerivedHooks k d) this s
          = Some (tt, s') ∧
    ready (cell_of s' k) = true ∧
    if notEqual derivedValue (valueAt (der_ctx d) this s)
    then contextMap s' !! (ctx_id (der_ctx d), this) = Some derivedValue
    else contextMap s' = contextMap s.
Proof.
  intros Hr Hac Hok Hd slots derivedValue.
  pose proof (derived_ok_elim _ _ Hok) as Hcs.
  unfold connectedHook.
  destruct (watchAll_spec bound depth k d this (der_contexts d) 0 s)
    as (s1 & H1 & Hac1 & _); [done..|].
  destruct (watchAll_not_ready (dispatchEvent depth) k d this (der_contexts d)
              0 s [] (values (cell_of s k)) Hr eq_refl eq_refl)
    as (s1' & H1' & Hcm1 & Hr1 & Hv1).
  rewrite H1 in H1'. injection H1' as <-.
  rewrite (bind_Some _ _ _ _ _ H1). cbv [bind modify sync gets].
  set (s2 := set_ready k true s1).
  assert (Hv2 : values (cell_of s2 k) = slots).
  { unfold s2, set_ready, cell_of at 1; simpl. rewrite lookup_insert_eq. simpl.
    by rewrite Hv1. }
  rewrite Hv2.
  destruct (provider_set_spec bound depth (der_ctx d) this derivedValue s2)
    as (s3 & H3 & Hs3); [done|done|].
  destruct (provider_set_frame bound depth (der_ctx d) this derivedValue s2)
    as (s3' & H3' & _ & _ & Hk3); [done|done|].
  rewrite H3 in H3'. injection H3' as <-.
  fold derivedValue. rewrite H3. exists s3. split; [done|].
  split.
  - destruct (Hk3 k) as [-> _]. unfold s2, set_ready, cell_of; simpl.
    by rewrite lookup_insert_eq.
  - change (contextMap s2) with (contextMap s1) in Hs3. rewrite Hcm1 in Hs3.
    unfold valueAt. destruct (notEqual _ _).
    + by destruct Hs3 as [-> _].
    + subst s3. done.
Qed.

(** ** A subscription over time *)

(** X9: a handler subscribed with [watch] receives each later value [set]
    on the element, after the handlers subscribed before it, and receives
    nothing from a [set] made after its unsubscribe function was called. *)
Theorem subscription_delivers_until_unsubscribed (depth : nat) (c : context)
    (el : node) (h : nat) (v : value) (s : state) :
  let paired := snapshot el ProviderUpdateTYPE s in
  forallb passive paired = true →
  registered el ProviderUpdateTYPE (FHandleUpdate (fresh s)) s = false →
  notEqual v (valueAt c el s) = true →
  ∃ unsubscribe s1 s2 s3 s4,
    watch (dispatchEvent (S depth)) c el (HUser h) s = Some (unsubscribe, s1) ∧
    provider_set (dispatchEvent (S depth)) c el v s1 = Some (tt, s2) ∧
    log s2 = log s1 ++
      Dispatched el (ContextProviderUpdateEvent (ctx_id c) v)
      :: List.map (λ h', Handled h' v) (watchers (ctx_id c) paired ++ [h]) ∧
    callStop unsubscribe s1 = Some (tt, s3) ∧
    provider_set (dispatchEvent (S depth)) c el v s3 = Some (tt, s4) ∧
    log s4 = log s3 ++
      Dispatched el (ContextProviderUpdateEvent (ctx_id c) v)
      :: List.map (λ h', Handled h' v) (watchers (ctx_id c) paired).
Proof.
  intros paired Hp Hnew Hne.
  unfold watch, provider_get, stored.
  cbv [bind ret gets modify callHandle logEffect freshId addEventListener
       callStop removeEventListener stop_el stop_ref].
  simpl.
  set (s0 := with_fresh S (with_log _ s)).
  assert (Hnew0 : registered el ProviderUpdateTYPE
            (ref_of (HandleUpdate (fresh s) c (HUser h))) s0 = false) by done.
  rewrite (addListener_new _ _ _ _ Hnew0).
  set (s1 := with_listeners _ s0).
  set (s3 := removeListener el ProviderUpdateTYPE (FHandleUpdate (fresh s)) s1).
  assert (Hsnap1 : snapshot el ProviderUpdateTYPE s1
                   = paired ++ [HandleUpdate (fresh s) c (HUser h)]).
  { unfold s1, snapshot, listeners_of; simpl. rewrite lookup_insert_eq; simpl.
    by rewrite List.filter_app, map_app. }
  assert (Hsnap3 : snapshot el ProviderUpdateTYPE s3 = paired).
  { unfold s3, s1, snapshot, removeListener, listeners_of; simpl.
    rewrite lookup_alter, decide_True by done. rewrite lookup_insert_eq. simpl.
    rewrite (filter_remove_last
               (same_listener ProviderUpdateTYPE (FHandleUpdate (fresh s))));
      [done|done|].
    unfold same_listener; simpl. by rewrite !bool_decide_eq_true_2. }
  destruct (provider_set_passive depth c el v s1) as (s2 & H2 & _ & _ & Hlog2 & _).
  { rewrite Hsnap1, forallb_app, Hp. done. }
  { exact Hne. }
  destruct (provider_set_passive depth c el v s3) as (s4 & H4 & _ & _ & Hlog4 & _).
  { by rewrite Hsnap3. }
  { exact Hne. }
  exists (StopFn el (FHandleUpdate (fresh s))), s1, s2, s3, s4.
  split; [done|]. split; [done|]. split; [|split; [done|split; [done|]]].
  - rewrite Hlog2, Hsnap1. do 3 f_equal.
    clear. induction paired as [|l ls IH]; simpl.
    + by rewrite bool_decide_eq_true_2.
    + destruct l as [| | |? ? [|]]; simpl; try done.
      case_bool_decide; simpl; by rewrite IH.
  - by rewrite Hlog4, Hsnap3.
Qed.

(** ** Attaching and detaching an element of a derived type *)

Lemma older_not_registered s el ty k :
  older s el = true → fresh s ≤ k →
  registered el ty (FHandleUpdate k) s = false.
Proof.
  unfold older, registered. intros Hold Hk.
  apply not_true_is_false. rewrite existsb_exists. intros ([ty' l] & Hin & Hx).
  rewrite forallb_forall in Hold. specialize (Hold _ Hin). simpl in Hold.
  apply bool_decide_eq_true in Hold.
  unfold same_listener in Hx. simpl in Hx.
  apply andb_prop in Hx as [_ Hr]. apply bool_decide_eq_true in Hr.
  rewrite Hr in Hold. simpl in Hold. lia.
Qed.

Lemma watch_slot_not_ready_listeners (disp : node → event → M unit)
    (u : context) k (d : derived) i this s :
  ready (cell_of s k) = false →
  older s this = true →
  ∃ s', watch disp u this (HDerivedSlot k d i this) s
          = Some (StopFn this (FHandleUpdate (fresh s)), s') ∧
        listeners_of s' this =
          listeners_of s this
          ++ [(ProviderUpdateTYPE, HandleUpdate (fresh s) u (HDerivedSlot k d i this))] ∧
        (∀ n, n ≠ this → listeners_of s' n = listeners_of s n) ∧
        fresh s' = S (fresh s) ∧
        ready (cell_of s' k) = false.
Proof.
  intros Hr Hold. unfold watch, provider_get, stored.
  cbv [bind gets modify callHandle]. rewrite cell_of_set_slot. simpl.
  rewrite Hr. cbv [ret freshId bind gets modify addEventListener].
  set (s0 := with_fresh S (set_slot k i _ s)).
  assert (Hnew : registered this ProviderUpdateTYPE
            (ref_of (HandleUpdate (fresh s) u (HDerivedSlot k d i this))) s0 = false).
  { change (registered this ProviderUpdateTYPE (FHandleUpdate (fresh s)) s = false).
    by apply older_not_registered. }
  change (fresh (set_slot k i
            match contextMap s !! (ctx_id u, this) with
            | Some v => v
            | None => defaultValue u
            end s)) with (fresh s).
  rewrite (addListener_new _ _ _ _ Hnew).
  eexists. split; [reflexivity|]. split; [|split; [|split; [done|]]].
  - unfold listeners_of at 1; simpl. by rewrite lookup_insert_eq.
  - intros n Hn. unfold listeners_of at 1; simpl. by rewrite lookup_insert_ne.
  - change (ready (cell_of (set_slot k i
              match contextMap s !! (ctx_id u, this) with
              | Some v => v
              | None => defaultValue u
              end s) k) = false).
    by rewrite cell_of_set_slot.
Qed.

Lemma watchAll_not_ready_listeners (disp : node → event → M unit) k (d : derived)
    this : ∀ cs i s,
  ready (cell_of s k) = false →
  older s this = true →
  ∃ s', watchAll disp k d this i cs s = Some (tt, s') ∧
        listeners_of s' this =
          listeners_of s this ++ slotListeners k d this (fresh s) i cs ∧
        (∀ n, n ≠ this → listeners_of s' n = listeners_of s n).
Proof.
  induction cs as [|u cs IH]; intros i s Hr Hold.
  - exists s. split; [done|]. split; [by rewrite app_nil_r|done].
  - change (watchAll disp k d this i (u :: cs) s)
      with (bind (watch disp u this (HDerivedSlot k d i this))
              (λ stop, modify (push_dispose k stop) ;;
                       watchAll disp k d this (S i) cs) s).
    destruct (watch_slot_not_ready_listeners disp u k d i this s Hr Hold)
      as (s1 & H1 & Hl1 & Ho1 & Hf1 & Hr1).
    rewrite (bind_Some _ _ _ _ _ H1). cbv [bind modify].
    set (s2 := push_dispose k _ s1).
    assert (Hl2 : ∀ n, listeners_of s2 n = listeners_of s1 n) by done.
    destruct (IH (S i) s2) as (s3 & -> & Hl3 & Ho3).
    + unfold s2. rewrite cell_of_push_dispose, decide_True by done. done.
    + unfold older. rewrite Hl2, Hl1.
      change (fresh s2) with (fresh s1). rewrite Hf1.
      rewrite forallb_app. apply andb_true_intro. split.
      * unfold older in Hold. rewrite forallb_forall in Hold.
        apply forallb_forall. intros x Hx. specialize (Hold x Hx).
        apply bool_decide_eq_true in Hold. apply bool_decide_eq_true. lia.
      * simpl. rewrite bool_decide_eq_true_2 by lia. done.
    + exists s3. split; [done|]. split.
      * rewrite Hl3, Hl2, Hl1. change (fresh s2) with (fresh s1). rewrite Hf1.
        by rewrite <- app_assoc.
      * intros n Hn. rewrite Ho3, Hl2 by done. auto.
Qed.

Lemma slotListeners_keep k d this f k0 i cs :
  f < k0 →
  List.filter (λ x, negb (same_listener ProviderUpdateTYPE (FHandleUpdate f) x))
    (slotListeners k d this k0 i cs) = slotListeners k d this k0 i cs.
Proof.
  revert k0 i. induction cs as [|u cs IH]; intros k0 i Hlt; simpl; [done|].
  unfold same_listener at 1; simpl.
  rewrite (bool_decide_eq_false_2 (FHandleUpdate k0 = FHandleUpdate f))
    by (intros [= ->]; lia).
  simpl. f_equal. apply IH. lia.
Qed.

(** Running the unsubscribe functions of one attach removes exactly its
    slot listeners. *)
Lemma callStops_stops k d this : ∀ cs f0 i s olds,
  listeners_of s this = olds ++ slotListeners k d this f0 i cs →
  (∀ x, In x olds → serial (ref_of x.2) < f0) →
  ∃ s', callStops (stops this f0 (length cs)) s = Some (tt, s') ∧
        listeners_of s' this = olds ∧
        (∀ n, n ≠ this → listeners_of s' n = listeners_of s n).
Proof.
  induction cs as [|u cs IH]; intros f0 i s olds Hl Hold.
  - exists s. split; [done|]. split; [by rewrite app_nil_r in Hl|done].
  - simpl length. rewrite stops_S. simpl.
    cbv [bind callStop removeEventListener modify stop_el stop_ref].
    set (s1 := removeListener this ProviderUpdateTYPE (FHandleUpdate f0) s).
    assert (Hl1 : listeners_of s1 this
                  = olds ++ slotListeners k d this (S f0) (S i) cs).
    { unfold s1, removeListener, listeners_of; simpl.
      rewrite lookup_alter, decide_True by done.
      unfold listeners_of in Hl.
      destruct (listeners s !! this) as [ls|]; simpl in *.
      - rewrite Hl, List.filter_app. simpl.
        unfold same_listener at 2; simpl.
        rewrite !bool_decide_eq_true_2 by done. simpl.
        rewrite slotListeners_keep by lia. f_equal.
        apply filter_keep_all. intros x Hx. apply negb_true_iff.
        unfold same_listener. apply andb_false_intro2.
        apply bool_decide_eq_false. intros Hr. specialize (Hold x Hx).
        rewrite Hr in Hold. simpl in Hold. lia.
      - by destruct olds. }
    destruct (IH (S f0) (S i) s1 olds Hl1) as (s2 & -> & Hl2 & Ho2).
    { intros x Hx. specialize (Hold x Hx). lia. }
    exists s2. split; [done|]. split; [done|].
    intros n Hn. rewrite Ho2 by done.
    unfold s1, removeListener, listeners_of; simpl.
    by rewrite lookup_alter, decide_False.
Qed.

(** X10: attaching an element of a derived type for the first time and
    detaching it again is a round trip on the listeners: while attached the
    element carries one slot listener per upstream context behind the
    listeners it had, and [disconnectedCallback] removes exactly those, so
    every element has the listeners it had before and later upstream
    updates no longer reach the derivation. *)
Theorem derived_detach_releases_subscriptions (bound depth k : nat)
    (d : derived) (this : node) (s : state) :
  ready (cell_of s k) = false →
  dispose (cell_of s k) = [] →
  older s this = true →
  acyclic bound s = true →
  derived_ok bound d = true →
  bound - ctx_id (der_ctx d) < depth →
  ∃ s1 s2,
    connectedHook (dispatchEvent depth) (DerivedHooks k d) this s = Some (tt, s1) ∧
    listeners_of s1 this =
      listeners_of s this ++ slotListeners k d this (fresh s) 0 (der_contexts d) ∧
    disconnectedHook (dispatchEvent depth) (DerivedHooks k d) this s1
      = Some (tt, s2) ∧
    (∀ n, listeners_of s2 n = listeners_of s n) ∧
    ready (cell_of s2 k) = false.
Proof.
  intros Hr Hd0 Hold Hac Hok Hdepth.
  pose proof (derived_ok_elim _ _ Hok) as Hcs.
  unfold connectedHook.
  destruct (watchAll_spec bound depth k d this (der_contexts d) 0 s)
    as (sw & Hw & Hacw & _ & _ & Hdw); [done..|].
  destruct (watchAll_not_ready_listeners (dispatchEvent depth) k d this
              (der_contexts d) 0 s Hr Hold) as (sw' & Hw' & Hlw & How).
  rewrite Hw in Hw'. injection Hw' as <-.
  rewrite (bind_Some _ _ _ _ _ Hw). cbv [bind modify sync gets].
  set (sr := set_ready k true sw).
  destruct (provider_set_frame bound depth (der_ctx d) this
              (derivation d (values (cell_of sr k))) sr)
    as (s1 & H1 & Hl1 & _ & Hk1); [done|done|].
  rewrite H1. exists s1.
  assert (Hls1 : ∀ n, listeners_of s1 n = listeners_of sw n).
  { intros n. unfold listeners_of. by rewrite Hl1. }
  assert (Hd1 : dispose (cell_of s1 k) = stops this (fresh s) (length (der_contexts d))).
  { destruct (Hk1 k) as [_ ->]. unfold sr, set_ready, cell_of at 1; simpl.
    rewrite lookup_insert_eq. simpl. by rewrite Hdw, Hd0. }
  unfold disconnectedHook. cbv [bind modify gets].
  set (sd := set_ready k false s1).
  assert (Hdd : dispose (cell_of sd k) = stops this (fresh s) (length (der_contexts d))).
  { unfold sd, set_ready, cell_of at 1; simpl. rewrite lookup_insert_eq. simpl.
    done. }
  rewrite Hdd.
  destruct (callStops_stops k d this (der_contexts d) (fresh s) 0 sd
              (listeners_of s this)) as (s2 & H2 & Hl2 & Ho2).
  { change (listeners_of sd this) with (listeners_of s1 this).
    by rewrite Hls1, Hlw. }
  { intros x Hx. unfold older in Hold. rewrite forallb_forall in Hold.
    specialize (Hold x Hx). by apply bool_decide_eq_true in Hold. }
  destruct (callStops_spec bound (stops this (fresh s) (length (der_contexts d))) sd)
    as (s2' & H2' & Hce2 & _).
  rewrite H2 in H2'. injection H2' as <-.
  exists s2. split; [done|]. split; [by rewrite Hls1, Hlw|].
  split; [done|]. split.
  - intros n. destruct (decide (n = this)) as [->|Hn]; [done|].
    rewrite Ho2 by done. change (listeners_of sd n) with (listeners_of s1 n).
    rewrite Hls1. auto.
  - unfold cell_of. rewrite Hce2. unfold sd, set_ready; simpl.
    by rewrite lookup_insert_eq.
Qed.

(** ** What a [set] leaves alone *)

(** X11: a [set] on one provider, whatever listeners and derived contexts
    hang on it, changes no other store entry of its context or of an older
    context, so that another provider of the same context keeps its value,
    and it registers and removes no listener and touches no retry
    dispatcher. *)
Theorem set_leaves_other_entries (bound depth : nat) (c : context) (this : node)
    (v : value) (s : state) :
  acyclic bound s = true →
  bound - ctx_id c < depth →
  ∃ s', provider_set (dispatchEvent depth) c this v s = Some (tt, s') ∧
    (∀ c' n, c' ≤ ctx_id c → (c', n) ≠ (ctx_id c, this) →
             contextMap s' !! (c', n) = contextMap s !! (c', n)) ∧
    listeners s' = listeners s ∧
    retries s' = retries s ∧
    parentNode s' = parentNode s.
Proof.
  intros Hac Hd. unfold provider_set, provider_get, stored. cbv [bind gets].
  destruct (notEqual v _); [|by exists s].
  cbv [modify]. set (s1 := with_contextMap _ s).
  destruct (dispatch_update bound depth (ctx_id c) this v s1)
    as (s' & -> & Hl & Hr & Hp & _ & Hc & _); [done..|].
  exists s'. split; [done|]. split; [|done].
  intros c' n Hle Hne. rewrite Hc by done. unfold s1; simpl.
  by rewrite lookup_insert_ne.
Qed.

End Protocol.


(** * Concrete runs

    The theorems above at concrete inputs, over [jsval] with structural
    inequality, and the runs on which two sentences of the specification
    fail as they are written. *)

Local Abbreviation js_dispatch := (dispatchEvent JUndefined js_notEqual).
Local Abbreviation ctx0 := (MkContext 0 (JNum 0)).
Local Abbreviation value_prop := (PName "value").

Lemma foreign_event_ignored_witness :
  let c1 := MkContext 0 (JNum 0) in
  let c2 := MkContext 1 (JNum 0) in
  let l := OnProviderUpdate
             (UpdateClosure 7 c1 2 value_prop (ConsumeOptions None None)) in
  let e := ContextProviderUpdateEvent (ctx_id c2) (JNum 5) in
  listener_ctx l ≠ event_ctx e ∧
  invoke JUndefined js_notEqual (js_dispatch 1) l 2 e initial
    = Some (false, initial).
Proof.
  intros c1 c2 l e.
  assert (Hne : listener_ctx l ≠ event_ctx e) by (vm_compute; lia).
  split; [exact Hne|].
  exact (foreign_event_ignored JUndefined js_notEqual (js_dispatch 1) l 2 e
           initial Hne).
Defined.

Lemma provider_detach_witness :
  let s := final (two_providers JUndefined js_notEqual (JNum 0) (JNum 1) (JNum 2)) in
  let proto := [Provide 1 ctx0 value_prop] in
  In (Provide 1 ctx0 value_prop) proto ∧
  contextMap s !! (0, 1) = Some (JNum 1) ∧
  ∃ s', disconnectedCallback (js_dispatch 1) proto 1 s = Some (tt, s') ∧
        contextMap s' !! (0, 1) = None ∧
        contextMap s' !! (0, 2) = Some (JNum 2) ∧
        provider_get ctx0 1 s' = Some (JNum 0, s').
Proof.
  intros s proto.
  assert (Hin : In (Provide 1 ctx0 value_prop) proto) by (left; reflexivity).
  split; [exact Hin|]. split; [vm_compute; reflexivity|].
  destruct (provider_detach_deletes_own_entry JUndefined js_notEqual 0 proto 1
              ctx0 value_prop 1 s Hin) as (s' & Hrun & _ & Hnone & Hothers & Hget).
  exists s'. split; [exact Hrun|]. split; [exact Hnone|]. split; [|exact Hget].
  rewrite Hothers by lia. vm_compute. reflexivity.
Defined.

Lemma equal_set_witness :
  let s := final (lone_provider JUndefined js_notEqual (JNum 0)) in
  acyclic 0 s = true ∧
  js_notEqual (JNum 7) (JNum 7) = false ∧
  ∃ s1 added,
    provider_set js_notEqual (js_dispatch 1) ctx0 1 (JNum 7) s = Some (tt, s1) ∧
    provider_set js_notEqual (js_dispatch 1) ctx0 1 (JNum 7) s1 = Some (tt, s1) ∧
    log s1 = log s ++ added ∧
    contextMap s1 !! (0, 1) = Some (JNum 7) ∧
    updates_from 0 1 added = [JNum 7].
Proof.
  intros s.
  assert (Hac : acyclic 0 s = true) by (vm_compute; reflexivity).
  assert (Heq : js_notEqual (JNum 7) (JNum 7) = false) by reflexivity.
  split; [exact Hac|]. split; [exact Heq|].
  destruct (equal_set_dispatches_at_most_once JUndefined js_notEqual 0 1 ctx0 1
              (JNum 7) (JNum 7) s Hac ltac:(simpl; lia) Heq)
    as (s1 & s2 & added & H1 & H2 & Hlog & H).
  cbv zeta in H.
  assert (Hne : js_notEqual (JNum 7)
            match contextMap s !! (ctx_id ctx0, 1) with
            | Some w => w
            | None => defaultValue ctx0
            end = true) by (vm_compute; reflexivity).
  rewrite Hne in H. destruct H as (Hst & -> & Hup).
  exists s1, added. repeat split; assumption.
Defined.

(** C1 as written fails where [v1] is already the provider's value: both
    calls are no-ops and no update event is dispatched, not one. *)
Lemma equal_sets_of_current_value_dispatch_nothing :
  let s := final (lone_provider JUndefined js_notEqual (JNum 0)) in
  js_notEqual (JNum 0) (JNum 0) = false ∧
  ∃ s2,
    bind (provider_set js_notEqual (js_dispatch 1) ctx0 1 (JNum 0))
      (λ _, provider_set js_notEqual (js_dispatch 1) ctx0 1 (JNum 0)) s
      = Some (tt, s2) ∧
    updates_from 0 1 (drop (length (log s)) (log s2)) = [] ∧
    length (updates_from 0 1 (drop (length (log s)) (log s2))) ≠ 1.
Proof.
  intros s. split; [reflexivity|]. exists s.
  split; [vm_compute; reflexivity|]. split; [vm_compute; reflexivity|].
  vm_compute. lia.
Qed.

Lemma detach_leaves_retry_witness :
  let s := final (lone_consumer JUndefined js_notEqual (JNum 0)) in
  let o := ConsumeOptions None (Some 0) in
  let proto := [Consume ctx0 value_prop o] in
  let dt := Detail 1 1 (UpdateClosure 2 ctx0 1 value_prop o) in
  let dsp := Dispatcher 1 (ContextConsumerConnectEvent 0 dt) (Some 0) 1 false true in
  retries s !! 1 = Some dsp ∧
  ∃ s1 s2 reported,
    disconnectedCallback (js_dispatch 1) proto 1 s = Some (tt, s1) ∧
    retries s1 = retries s ∧
    retry_tick 0 (js_dispatch 1) 1 s1 = Some (tt, s2) ∧
    log s2 = log s1 ++ reported ++ [Dispatched 1 (ContextConsumerConnectEvent 0 dt)].
Proof.
  intros s o proto dt dsp.
  assert (Hdsp : retries s !! 1 = Some dsp) by (vm_compute; reflexivity).
  split; [exact Hdsp|].
  destruct (detach_leaves_retry_scheduled JUndefined js_notEqual 0 0 proto 1 1
              dsp 0 dt s Hdsp eq_refl eq_refl eq_refl eq_refl)
    as [(s1 & s2 & reported & H1 & H2 & H3 & H4) _].
  exists s1, s2, reported. repeat split; assumption.
Defined.

(** C7 as written fails: a consumer still in discovery is detached, its
    [disconnectedCallback] runs, and when the retry timer then fires the
    failure callback is called and the connect event is dispatched again. *)
Lemma detach_does_not_cancel_retries :
  let s := final (lone_consumer JUndefined js_notEqual (JNum 0)) in
  let o := ConsumeOptions None (Some 0) in
  let proto := [Consume ctx0 value_prop o] in
  let dt := Detail 1 1 (UpdateClosure 2 ctx0 1 value_prop o) in
  let s1 := after (detach (js_dispatch 1) proto 1) s in
  let s2 := after (retry_tick 0 (js_dispatch 1) 1) s1 in
  detach (js_dispatch 1) proto 1 s = Some (tt, s1) ∧
  retry_tick 0 (js_dispatch 1) 1 s1 = Some (tt, s2) ∧
  log s2 = log s1 ++ [CouldNotFind 0 1;
                      Dispatched 1 (ContextConsumerConnectEvent 0 dt)].
Proof.
  intros s o proto dt s1 s2. repeat split; vm_compute; reflexivity.
Qed.

Lemma watch_witness :
  let s := final (lone_provider JUndefined js_notEqual (JNum 0)) in
  registered 1 ProviderUpdateTYPE (FHandleUpdate (fresh s)) s = false ∧
  ∃ unsubscribe s1 s2,
    watch JUndefined js_notEqual (js_dispatch 1) ctx0 1 (HUser 0) s
      = Some (unsubscribe, s1) ∧
    log s1 = log s ++ [Handled 0 (JNum 0)] ∧
    callStop unsubscribe s1 = Some (tt, s2) ∧
    listeners_of s2 1 = listeners_of s 1.
Proof.
  intros s.
  assert (Hnew : registered 1 ProviderUpdateTYPE (FHandleUpdate (fresh s)) s = false)
    by (vm_compute; reflexivity).
  split; [exact Hnew|].
  destruct (watch_calls_handler_once JUndefined js_notEqual (js_dispatch 1)
              ctx0 1 0 s Hnew)
    as (unsub & s1 & s2 & H1 & H2 & _ & H4 & H5 & _).
  exists unsub, s1, s2. split; [exact H1|]. split; [exact H2|].
  split; [exact H4|]. apply H5.
Defined.

Local Abbreviation ctxA := (MkContext 0 (JStr "x")).
Local Abbreviation ctxB := (MkContext 1 (JNum 1)).
Local Abbreviation derivedAB :=
  (Derived (PSymbol 2) (MkContext 3 (JStr "x1")) [ctxA; ctxB] js_sum).


(** The example of the specification, end to end: the derived value is
    ["x1"] after attaching and ["y1"] once the first upstream is set to
    ["y"], the second upstream unchanged. *)
Example derived_x1_then_y1 :
  let attached := derived_attached JUndefined js_notEqual (JStr "x") (JNum 1) js_sum in
  fst <$> bind attached (λ r, provider_get (der_ctx (snd (fst r))) 1) initial
    = Some (JStr "x1") ∧
  fst <$> bind attached (λ r,
            bind (provider_set js_notEqual (js_dispatch 2) (fst (fst (fst r))) 1
                    (JStr "y"))
              (λ _, provider_get (der_ctx (snd (fst r))) 1)) initial
    = Some (JStr "y1").
Proof.
  intros attached. split; vm_compute; reflexivity.
Qed.

Lemma derived_closure_witness :
  let s := final (derived_type (JStr "x") (JNum 1) js_sum) in
  let proto := [Provide 7 (der_ctx derivedAB) (der_key derivedAB);
                DerivedHooks 6 derivedAB] in
  acyclic 3 s = true ∧
  derived_ok 3 derivedAB = true ∧
  dispose (cell_of s 6) = [] ∧
  ∃ s1 s2 s3,
    connectedCallback JUndefined js_notEqual (js_dispatch 1) proto 1 s = Some (tt, s1) ∧
    disconnectedCallback (js_dispatch 1) proto 1 s1 = Some (tt, s2) ∧
    connectedCallback JUndefined js_notEqual (js_dispatch 1) proto 2 s2 = Some (tt, s3) ∧
    dispose (cell_of s2 6) = stops 1 8 2 ∧
    (∀ f, In f (stops 1 8 2) →
       registered (stop_el f) ProviderUpdateTYPE (stop_ref f) s2 = false) ∧
    dispose (cell_of s3 6) = stops 1 8 2 ++ stops 2 10 2.
Proof.
  intros s proto.
  assert (Hac : acyclic 3 s = true) by (vm_compute; reflexivity).
  assert (Hok : derived_ok 3 derivedAB = true) by (vm_compute; reflexivity).
  assert (Hd0 : dispose (cell_of s 6) = []) by (vm_compute; reflexivity).
  assert (Hf0 : fresh s = 8) by (vm_compute; reflexivity).
  split; [exact Hac|]. split; [exact Hok|]. split; [exact Hd0|].
  destruct (derived_closure_shared_per_type JUndefined js_notEqual 3 1 7 6
              derivedAB 1 2 s Hac Hok ltac:(simpl; lia))
    as (s1 & s2 & s3 & H1 & H2 & H3 & _ & Hd1 & _ & Hd2 & Hgone & _ & Hd3).
  clearbody s. rewrite Hd0, Hf0 in Hd1, Hd3. rewrite Hf0 in Hgone.
  exists s1, s2, s3. split; [exact H1|]. split; [exact H2|]. split; [exact H3|].
  split; [rewrite Hd2; exact Hd1|]. split; [exact Hgone|]. exact Hd3.
Defined.

(** ** Further concrete runs *)

Local Abbreviation seen_prop := (PName "seen").
Local Abbreviation got := (Some (js_add (JStr "got "))).
Local Abbreviation paired_state :=
  (final (paired_consumer JUndefined js_notEqual (JNum 0) (JNum 5) got)).
Local Abbreviation seen_callback :=
  (UpdateClosure 3 ctx0 2 seen_prop (ConsumeOptions got None)).

Lemma set_reaches_witness :
  let s := paired_state in
  snapshot 1 ProviderUpdateTYPE s = [OnProviderUpdate seen_callback] ∧
  props s !! (2, seen_prop) = Some (JStr "got 5") ∧
  ∃ s', provider_set js_notEqual (js_dispatch 1) ctx0 1 (JNum 9) s = Some (tt, s') ∧
        contextMap s' !! (0, 1) = Some (JNum 9) ∧
        props s' !! (2, seen_prop) = Some (JStr "got 9").
Proof.
  intros s.
  assert (Hsnap : snapshot 1 ProviderUpdateTYPE s = [OnProviderUpdate seen_callback])
    by (vm_compute; reflexivity).
  assert (Hp : forallb passive (snapshot 1 ProviderUpdateTYPE s) = true)
    by (vm_compute; reflexivity).
  assert (Hne : js_notEqual (JNum 9)
            match contextMap s !! (ctx_id ctx0, 1) with
            | Some w => w
            | None => defaultValue ctx0
            end = true) by (vm_compute; reflexivity).
  split; [exact Hsnap|]. split; [vm_compute; reflexivity|].
  destruct (set_reaches_every_consumer JUndefined js_notEqual 0 ctx0 1 (JNum 9) s
              Hp Hne) as (s' & Hrun & Hcm & _ & _ & Hprops & _).
  clearbody s. exists s'. split; [exact Hrun|]. split.
  - rewrite Hcm. apply lookup_insert_eq.
  - rewrite Hsnap in Hprops.
    apply (Hprops seen_callback); [by left|reflexivity|].
    intros u' [[= <-]|[]] _ _. reflexivity.
Defined.

Lemma consumer_detach_witness :
  let s := paired_state in
  let l := DisconnectListener 5 ctx0 1 (FOnProviderUpdate 3) 2 4 in
  In l (snapshot 2 ConsumerDisconnectTYPE s) ∧
  registered 1 ProviderUpdateTYPE (FOnProviderUpdate 3) s = true ∧
  ∃ s', disconnectedHook (js_dispatch 1)
          (Consume ctx0 seen_prop (ConsumeOptions got None)) 2 s = Some (tt, s') ∧
        registered 1 ProviderUpdateTYPE (FOnProviderUpdate 3) s' = false.
Proof.
  intros s l.
  assert (Hin : In l (snapshot 2 ConsumerDisconnectTYPE s))
    by (vm_compute; left; reflexivity).
  split; [exact Hin|]. split; [vm_compute; reflexivity|].
  destruct (consumer_detach_unpairs JUndefined js_notEqual 0 ctx0 seen_prop
              (ConsumeOptions got None) 2 5 ctx0 1 (FOnProviderUpdate 3) 2 4 s
              Hin eq_refl) as (s' & Hrun & Hgone & _).
  exists s'. split; [exact Hrun|exact Hgone].
Defined.

Local Abbreviation inserted_state :=
  (final (child_inserted JUndefined js_notEqual (JNum 0) (JNum 5))).

Lemma consumer_attach_witness :
  let s := inserted_state in
  nearestProvider 0 (pathFrom s 2) s = Some 1 ∧
  ∃ s', connectedHook JUndefined js_notEqual (js_dispatch 1)
          (Consume ctx0 seen_prop (ConsumeOptions got None)) 2 s = Some (tt, s') ∧
        props s' !! (2, seen_prop) = Some (JStr "got 5") ∧
        registered 1 ProviderUpdateTYPE (FOnProviderUpdate 3) s' = true.
Proof.
  intros s.
  assert (Hnear : nearestProvider (ctx_id ctx0) (pathFrom s 2) s = Some 1)
    by (vm_compute; reflexivity).
  assert (Hsnap : snapshot 1 ConsumerConnectTYPE s = [OnConsumerConnect 1 ctx0 value_prop])
    by (vm_compute; reflexivity).
  assert (Hst : contextMap s !! (0, 1) = Some (JNum 5)) by (vm_compute; reflexivity).
  assert (Hf : fresh s = 2) by (vm_compute; reflexivity).
  split; [exact Hnear|].
  destruct (consumer_attach_pairs JUndefined js_notEqual 0 ctx0 seen_prop
              (ConsumeOptions got None) 2 1 s Hnear)
    as (s' & deco & c' & q & Hrun & Hin & Hc & Hprop & Hreg & _).
  clearbody s. exists s'. split; [exact Hrun|]. split.
  - rewrite Hprop. simpl. rewrite Hst. reflexivity.
  - rewrite Hf in Hreg. exact Hreg.
Defined.

Lemma consumer_alone_witness :
  let s := inserted_state in
  let other := MkContext 50 (JNum 0) in
  nearestProvider 50 (pathFrom s 2) s = None ∧
  ∃ s' dt, connectedHook JUndefined js_notEqual (js_dispatch 1)
             (Consume other seen_prop (ConsumeOptions None None)) 2 s
           = Some (tt, s') ∧
        listeners s' = listeners s ∧
        props s' = props s ∧
        log s' = log s ++ [Dispatched 2 (ContextConsumerConnectEvent 50 dt)].
Proof.
  intros s other.
  assert (Hnear : nearestProvider (ctx_id other) (pathFrom s 2) s = None)
    by (vm_compute; reflexivity).
  split; [exact Hnear|].
  destruct (consumer_attach_without_provider JUndefined js_notEqual 0 other
              seen_prop (ConsumeOptions None None) 2 s Hnear)
    as (s' & dt & Hrun & Hl & Hp & _ & Hlog).
  exists s', dt. split; [exact Hrun|]. split; [exact Hl|]. split; [exact Hp|exact Hlog].
Defined.

Lemma provider_reattach_witness :
  let s := final (two_providers JUndefined js_notEqual (JNum 0) (JNum 1) (JNum 2)) in
  let proto := [Provide 1 ctx0 value_prop] in
  In (Provide 1 ctx0 value_prop) proto ∧
  forallb plain proto = true ∧
  contextMap s !! (0, 1) = Some (JNum 1) ∧
  ∃ s1 s2,
    disconnectedCallback (js_dispatch 1) proto 1 s = Some (tt, s1) ∧
    connectedCallback JUndefined js_notEqual (js_dispatch 1) proto 1 s1 = Some (tt, s2) ∧
    provider_get ctx0 1 s2 = Some (JNum 0, s2).
Proof.
  intros s proto.
  assert (Hin : In (Provide 1 ctx0 value_prop) proto) by (left; reflexivity).
  assert (Hplain : forallb plain proto = true) by reflexivity.
  split; [exact Hin|]. split; [exact Hplain|]. split; [vm_compute; reflexivity|].
  destruct (provider_reattach_forgets JUndefined js_notEqual 0 proto 1 ctx0
              value_prop 1 s Hin Hplain) as (s1 & s2 & H1 & H2 & _ & Hget).
  exists s1, s2. split; [exact H1|]. split; [exact H2|exact Hget].
Defined.


Lemma derived_attach_witness :
  let s := final (derived_type_with_value JUndefined js_notEqual
                    (JStr "x") (JNum 1) js_sum (JStr "q")) in
  ready (cell_of s 6) = false ∧
  acyclic 3 s = true ∧
  derived_ok 3 derivedAB = true ∧
  contextMap s !! (0, 1) = Some (JStr "q") ∧
  ∃ s', connectedHook JUndefined js_notEqual (js_dispatch 1)
          (DerivedHooks 6 derivedAB) 1 s = Some (tt, s') ∧
        ready (cell_of s' 6) = true ∧
        contextMap s' !! (3, 1) = Some (JStr "q1").
Proof.
  intros s.
  assert (Hr : ready (cell_of s 6) = false) by (vm_compute; reflexivity).
  assert (Hac : acyclic 3 s = true) by (vm_compute; reflexivity).
  assert (Hok : derived_ok 3 derivedAB = true) by (vm_compute; reflexivity).
  split; [exact Hr|]. split; [exact Hac|]. split; [exact Hok|].
  split; [vm_compute; reflexivity|].
  destruct (derived_attach_reads_own_element JUndefined js_notEqual 3 1 6
              derivedAB 1 s Hr Hac Hok ltac:(simpl; lia))
    as (s' & Hrun & Hready & H).
  exists s'. split; [exact Hrun|]. split; [exact Hready|].
  match type of H with
  | if ?b then _ else _ => assert (Hne : b = true) by (vm_compute; reflexivity)
  end.
  rewrite Hne in H. etransitivity; [exact H|]. vm_compute. reflexivity.
Defined.

Lemma subscription_witness :
  let s := paired_state in
  forallb passive (snapshot 1 ProviderUpdateTYPE s) = true ∧
  registered 1 ProviderUpdateTYPE (FHandleUpdate (fresh s)) s = false ∧
  js_notEqual (JNum 9) (valueAt ctx0 1 s) = true ∧
  ∃ unsubscribe s1 s2 s3 s4,
    watch JUndefined js_notEqual (js_dispatch 1) ctx0 1 (HUser 0) s
      = Some (unsubscribe, s1) ∧
    provider_set js_notEqual (js_dispatch 1) ctx0 1 (JNum 9) s1 = Some (tt, s2) ∧
    log s2 = log s1 ++ [Dispatched 1 (ContextProviderUpdateEvent 0 (JNum 9));
                        Handled 0 (JNum 9)] ∧
    callStop unsubscribe s1 = Some (tt, s3) ∧
    provider_set js_notEqual (js_dispatch 1) ctx0 1 (JNum 9) s3 = Some (tt, s4) ∧
    log s4 = log s3 ++ [Dispatched 1 (ContextProviderUpdateEvent 0 (JNum 9))].
Proof.
  intros s.
  assert (Hsnap : snapshot 1 ProviderUpdateTYPE s = [OnProviderUpdate seen_callback])
    by (vm_compute; reflexivity).
  assert (Hp : forallb passive (snapshot 1 ProviderUpdateTYPE s) = true)
    by (vm_compute; reflexivity).
  assert (Hnew : registered 1 ProviderUpdateTYPE (FHandleUpdate (fresh s)) s = false)
    by (vm_compute; reflexivity).
  assert (Hne : js_notEqual (JNum 9) (valueAt ctx0 1 s) = true)
    by (vm_compute; reflexivity).
  split; [exact Hp|]. split; [exact Hnew|]. split; [exact Hne|].
  destruct (subscription_delivers_until_unsubscribed JUndefined js_notEqual 0
              ctx0 1 0 (JNum 9) s Hp Hnew Hne)
    as (unsub & s1 & s2 & s3 & s4 & H1 & H2 & Hl2 & H3 & H4 & Hl4).
  clearbody s. rewrite Hsnap in Hl2, Hl4.
  exists unsub, s1, s2, s3, s4.
  split; [exact H1|]. split; [exact H2|]. split; [exact Hl2|].
  split; [exact H3|]. split; [exact H4|exact Hl4].
Defined.

Lemma derived_detach_witness :
  let s := final (derived_type_with_value JUndefined js_notEqual
                    (JStr "x") (JNum 1) js_sum (JStr "q")) in
  ready (cell_of s 6) = false ∧
  dispose (cell_of s 6) = [] ∧
  older s 1 = true ∧
  acyclic 3 s = true ∧
  derived_ok 3 derivedAB = true ∧
  ∃ s1 s2,
    connectedHook JUndefined js_notEqual (js_dispatch 1)
      (DerivedHooks 6 derivedAB) 1 s = Some (tt, s1) ∧
    length (listeners_of s1 1) = 2 ∧
    disconnectedHook (js_dispatch 1) (DerivedHooks 6 derivedAB) 1 s1
      = Some (tt, s2) ∧
    listeners_of s2 1 = [].
Proof.
  intros s.
  assert (Hr : ready (cell_of s 6) = false) by (vm_compute; reflexivity).
  assert (Hd : dispose (cell_of s 6) = []) by (vm_compute; reflexivity).
  assert (Hold : older s 1 = true) by (vm_compute; reflexivity).
  assert (Hac : acyclic 3 s = true) by (vm_compute; reflexivity).
  assert (Hok : derived_ok 3 derivedAB = true) by (vm_compute; reflexivity).
  assert (Hl0 : listeners_of s 1 = []) by (vm_compute; reflexivity).
  split; [exact Hr|]. split; [exact Hd|]. split; [exact Hold|].
  split; [exact Hac|]. split; [exact Hok|].
  destruct (derived_detach_releases_subscriptions JUndefined js_notEqual 3 1 6
              derivedAB 1 s Hr Hd Hold Hac Hok ltac:(simpl; lia))
    as (s1 & s2 & H1 & Hl1 & H2 & Hl2 & _).
  clearbody s. exists s1, s2. split; [exact H1|]. split.
  - rewrite Hl1, Hl0. reflexivity.
  - split; [exact H2|]. rewrite Hl2. exact Hl0.
Defined.

Lemma set_leaves_other_witness :
  let s := final (two_providers JUndefined js_notEqual (JNum 0) (JNum 1) (JNum 2)) in
  acyclic 0 s = true ∧
  contextMap s !! (0, 2) = Some (JNum 2) ∧
  ∃ s', provider_set js_notEqual (js_dispatch 1) ctx0 1 (JNum 9) s = Some (tt, s') ∧
        contextMap s' !! (0, 2) = Some (JNum 2).
Proof.
  intros s.
  assert (Hac : acyclic 0 s = true) by (vm_compute; reflexivity).
  assert (Hst : contextMap s !! (0, 2) = Some (JNum 2)) by (vm_compute; reflexivity).
  split; [exact Hac|]. split; [exact Hst|].
  destruct (set_leaves_other_entries JUndefined js_notEqual 0 1 ctx0 1 (JNum 9) s
              Hac ltac:(simpl; lia)) as (s' & Hrun & Hothers & _).
  clearbody s. exists s'. split; [exact Hrun|].
  rewrite Hothers; [exact Hst|simpl; lia|intros [= ?]; lia].
Defined.
